(** * TLSA synchronisation hook ([hooks/stalwart.py]): model and properties

    A shallow embedding of the Stalwart -> Cloudflare TLSA synchronisation
    script.  Pure helpers ([normalize_name], [normalize_tlsa_records],
    [tlsa_set], the set difference of [main]) are Rocq functions; the code
    that talks to the outside (HTTP calls, the reload command, printing)
    runs in a small monad that threads the state of the outside world,
    collects the trace of observable events and propagates exceptions.

    Modelling conventions.
    - A Python [str] is a [string]; a character is a code point below 256
      (type [ascii]).  Whitespace, lowercasing and comparison follow
      Python on those code points; code points above 255 are outside the
      model.
    - A JSON object is a record holding the keys the script reads, each
      [option]al (absent key = [None]); values read through [str(...)]
      are JSON scalars (null, booleans, integers, strings).  Floats and
      nested containers in those positions are outside the model.
    - Of command-line parsing ([argparse]) the model keeps the options
      given ([Flags]) and the defaults taken from the environment
      ([parse_args]); usage errors and [--help] are not modelled. *)

From Stdlib Require Import ZArith Ascii String Lia.
From stdpp Require Import base option list strings pretty sorting gmap.



(** ** Characters and Python string methods *)

Definition code (c : ascii) : N := N_of_ascii c.

(** [str.isspace] on one code point below 256: TAB..CR, FS..US, SPACE,
    NEL (0x85) and NBSP (0xA0). *)
Definition is_space (c : ascii) : bool :=
  let n := code c in
  ((9 <=? n) && (n <=? 13) || (28 <=? n) && (n <=? 32)
   || (n =? 133) || (n =? 160))%N.

(** [str.lower] on one code point below 256: A-Z and the Latin-1 capitals
    0xC0-0xDE (0xD7, the multiplication sign, excepted) move up by 32. *)
Definition lower_char (c : ascii) : ascii :=
  let n := code c in
  if ((65 <=? n) && (n <=? 90)
      || (192 <=? n) && (n <=? 222) && negb (n =? 215))%N
  then ascii_of_N (n + 32) else c.

(** [str.upper] on one code point below 256.  The three letters whose
    Python upper case is not a single code point below 256 (0xB5, 0xDF,
    0xFF) are left unchanged; in Python as here, no string that holds one
    of them upper-cases to ["TLSA"], the only string the script compares
    an upper-cased value with. *)
Definition upper_char (c : ascii) : ascii :=
  let n := code c in
  if ((97 <=? n) && (n <=? 122)
      || (224 <=? n) && (n <=? 254) && negb (n =? 247))%N
  then ascii_of_N (n - 32) else c.

Fixpoint map_chars (f : ascii -> ascii) (s : string) : string :=
  match s with
  | EmptyString => EmptyString
  | String c s' => String (f c) (map_chars f s')
  end.

Definition lower : string -> string := map_chars lower_char.
Definition upper : string -> string := map_chars upper_char.

(** [s.lstrip()] / [s.lstrip(chars)]: drop the longest prefix of
    characters satisfying [p]. *)
Fixpoint lstrip_by (p : ascii -> bool) (s : string) : string :=
  match s with
  | EmptyString => EmptyString
  | String c s' => if p c then lstrip_by p s' else s
  end.

(** [s.rstrip()] / [s.rstrip(chars)]: drop the longest suffix of
    characters satisfying [p]. *)
Fixpoint rstrip_by (p : ascii -> bool) (s : string) : string :=
  match s with
  | EmptyString => EmptyString
  | String c s' =>
      match rstrip_by p s' with
      | EmptyString => if p c then EmptyString else String c EmptyString
      | r => String c r
      end
  end.

(** [s.strip()] *)
Definition strip (s : string) : string :=
  rstrip_by is_space (lstrip_by is_space s).

Definition is_dot (c : ascii) : bool := (code c =? 46)%N.

(** [s.rstrip(".")] *)
Definition rstrip_dots : string -> string := rstrip_by is_dot.

(** Python truthiness of a [str]. *)
Definition nonempty (s : string) : bool :=
  match s with EmptyString => false | String _ _ => true end.

(** [s.split()]: the maximal runs of non-whitespace characters. *)
Fixpoint split_ws (s : string) : list string :=
  match s with
  | EmptyString => []
  | String c s' =>
      if is_space c then split_ws s'
      else match s' with
           | EmptyString => [String c EmptyString]
           | String c' _ =>
               if is_space c' then String c EmptyString :: split_ws s'
               else match split_ws s' with
                    | t :: ts => String c t :: ts
                    | [] => [String c EmptyString]
                    end
           end
  end.

(** [s.split(sep, maxsplit)] for a one-character separator: cut at the
    first [maxsplit] occurrences of [sep]; empty pieces are kept. *)
Fixpoint split_sep (sep : ascii) (maxsplit : nat) (s : string) : list string :=
  match s with
  | EmptyString => [EmptyString]
  | String c s' =>
      match maxsplit with
      | O => [s]
      | S n =>
          if Ascii.eqb c sep then EmptyString :: split_sep sep n s'
          else match split_sep sep maxsplit s' with
               | t :: ts => String c t :: ts
               | [] => [String c EmptyString]
               end
      end
  end.

(** [sep.join(parts)] *)
Definition join (sep : string) (parts : list string) : string :=
  String.concat sep parts.

(** ** Name normalisation (source lines 95-96) *)

Definition normalize_name (name : string) : string :=
  rstrip_dots (lower (strip name)).

(** The normalisation of names as section 4.2 of the specification words
    it: trim, lowercase, strip one trailing dot. *)
Definition strip_one_trailing_dot (s : string) : string :=
  match String.rev s with
  | String c r => if is_dot c then String.rev r else s
  | EmptyString => s
  end.

Definition normalize_name_spec (name : string) : string :=
  strip_one_trailing_dot (lower (strip name)).

(** ** JSON values and Python conversions *)

Inductive scalar :=
| JNull
| JBool (b : bool)
| JInt (z : Z)
| JStr (s : string).

(** [str(v)] *)
Definition py_str (v : scalar) : string :=
  match v with
  | JNull => "None"
  | JBool true => "True"
  | JBool false => "False"
  | JInt z => pretty z
  | JStr s => s
  end.

(** Python truthiness: [if v], [not v], [v or default]. *)
Definition truthy (v : scalar) : bool :=
  match v with
  | JNull => false
  | JBool b => b
  | JInt z => negb (z =? 0)%Z
  | JStr s => nonempty s
  end.

(** [d.get(key)] yields [None] for an absent key; an absent key and a
    JSON null are both falsy and both print as ["None"]. *)
Definition truthy_opt (v : option scalar) : bool :=
  match v with Some x => truthy x | None => false end.

(** [str(d.get(key, ""))] *)
Definition get_str (v : option scalar) : string :=
  match v with Some x => py_str x | None => "" end.

Definition digit_val (c : ascii) : option Z :=
  let n := code c in
  if ((48 <=? n) && (n <=? 57))%N then Some (Z.of_N (n - 48)) else None.

(** The digits of a decimal literal: single underscores are allowed
    between digits only. *)
Fixpoint parse_digits (acc : Z) (after_digit : bool) (s : string) : option Z :=
  match s with
  | EmptyString => if after_digit then Some acc else None
  | String c s' =>
      match digit_val c with
      | Some d => parse_digits (10 * acc + d) true s'
      | None =>
          if (code c =? 95)%N && after_digit then parse_digits acc false s'
          else None
      end
  end.

(** [int(s)] for a string: surrounding whitespace, an optional sign, a
    decimal literal.  [None] stands for the [ValueError] Python raises. *)
Definition py_int (s : string) : option Z :=
  match strip s with
  | String "+" r => parse_digits 0 false r
  | String "-" r => Z.opp <$> parse_digits 0 false r
  | t => parse_digits 0 false t
  end.

(** [int(v)] for a scalar that is not null. *)
Definition py_int_scalar (v : scalar) : option Z :=
  match v with
  | JNull => None
  | JBool b => Some (if b then 1 else 0)%Z
  | JInt z => Some z
  | JStr s => py_int s
  end.

(** ** JSON objects, restricted to the keys the script reads *)

(** An element of Stalwart's ["data"] list. *)
Record stalwart_object := {
  st_type : option scalar;
  st_name : option scalar;
  st_content : option scalar
}.

(** The ["data"] member of a Cloudflare TLSA record. *)
Record tlsa_data := {
  td_usage : option scalar;
  td_selector : option scalar;
  td_matching_type : option scalar;
  td_certificate : option scalar
}.

(** An element of a Cloudflare ["result"] list (a zone or a DNS record).
    [cf_data] is [None] when the key is absent or its value is falsy
    ([r.get("data") or {}]). *)
Record cf_object := {
  cf_id : option scalar;
  cf_name : option scalar;
  cf_data : option tlsa_data
}.

Definition empty_data : tlsa_data :=
  {| td_usage := None; td_selector := None;
     td_matching_type := None; td_certificate := None |}.

(** A decoded JSON response.  [resp_data] and [resp_result] are [None]
    when the key is absent or its value is not a list; [resp_errors]
    lists [e.get("message")] for each element of [resp.get("errors") or
    []]; [resp_total_pages] is [result_info.get("total_pages")]. *)
Record response := {
  resp_data : option (list stalwart_object);
  resp_success : option scalar;
  resp_errors : list (option scalar);
  resp_result : option (list cf_object);
  resp_total_pages : option scalar
}.

(** ** Canonical records (source lines 46-49) *)

Record NormTLSA := { name : string; content : string }.

Global Instance NormTLSA_eq_dec : EqDecision NormTLSA.
Proof. solve_decision. Defined.

(** The pair a record is compared by. *)
Definition key_of (r : NormTLSA) : string * string := (name r, content r).

(** Python's order on pairs of strings: by first component, then by
    second; strings are compared code point by code point. *)
Definition key_leb (x y : string * string) : bool :=
  if String.eqb (fst x) (fst y) then String.leb (snd x) (snd y)
  else String.leb (fst x) (fst y).

Definition key_le (x y : string * string) : Prop := key_leb x y = true.

Global Instance key_le_dec : RelDecision key_le.
Proof. intros x y. unfold key_le. apply _. Defined.

Definition tlsa_le (r1 r2 : NormTLSA) : Prop := key_le (key_of r1) (key_of r2).

Global Instance tlsa_le_dec : RelDecision tlsa_le.
Proof. intros x y. unfold tlsa_le. apply _. Defined.

(** [out.sort(key=lambda x: (x.name, x.content))].  Two records with the
    same key are equal, so the sorted list does not depend on the sorting
    algorithm (see [sort_tlsa_unique]). *)
Definition sort_tlsa (l : list NormTLSA) : list NormTLSA :=
  merge_sort tlsa_le l.

(** [sorted(s)] for a set of pairs. *)
Definition sorted_keys (s : gset (string * string)) : list (string * string) :=
  merge_sort key_le (elements s).

(** ** Progress and diagnostic lines *)

Inductive exn :=
| ValueError (m : error_msg)
| RuntimeError (m : error_msg)
| NameError (unbound : string)
with error_msg :=
| MissingDomain
| MissingCloudflareKey
| MissingStalwartKey
| MissingStalwartURL
| InvalidIntLiteral (s : string)
| InvalidTLSAContent (rec_name rec_content : string)
| HttpStatus (status : Z) (detail : string)
| NetworkFailure (reason : string)
| InvalidJson (snippet : string)
| ZoneLookupFailed (msg : string)
| ZoneNotFound (domain : string)
| ZoneWithoutId
| ListFailed (msg : string)
| DeleteFailed (record_id msg : string)
| AddFailed (rec_name msg : string).

Inductive message :=
| WarnInvalidTLSA (rec_name rec_content : string)
| WarnNoRecordId (rec_name rec_content : string)
| ErrorLine (e : exn)
| MsgStarting (domain : string)
| MsgFetchingStalwart
| MsgNoneInStalwart
| MsgFoundStalwart (n : nat)
| MsgFetchingZone (domain : string)
| MsgZoneId (zone_id : string)
| MsgFetchingCloudflare
| MsgFoundCloudflare (n : nat)
| MsgNormalizedStalwart
| MsgNormalizedCloudflare
| MsgRecord (rec_name rec_content : string)
| MsgUpToDate
| MsgPlanned
| MsgPlanDelete (n : nat)
| MsgPlanAdd (n : nat)
| MsgDryRun
| MsgDeleting
| MsgDeleted (rec_name rec_content : string)
| MsgAdding
| MsgAdded (rec_name rec_content : string)
| MsgCompleted
| LogDiscordFailed (e : exn)
| LogSkipReload
| LogReloading
| LogWouldRun (cmd : list string).

(** ** The Normalizer (source lines 99-118) *)

(** The body of the loop of [normalize_tlsa_records] for one record:
    the canonical record it appends, if any, and what it writes to the
    error stream. *)
Definition normalize_step (r : stalwart_object) : option NormTLSA * list message :=
  let name := normalize_name (get_str (st_name r)) in
  let content := strip (get_str (st_content r)) in
  if negb (nonempty name) || negb (nonempty content) then (None, [])
  else
    let parts :=
      strip <$> filter (fun p => nonempty (strip p) = true) (split_ws content) in
    let parts := take 4 parts in
    if negb (length parts =? 4)%nat
    then (None, [WarnInvalidTLSA name content])
    else (Some {| name := name; content := join " " parts |}, []).

Fixpoint normalize_loop (records : list stalwart_object)
  : list NormTLSA * list message :=
  match records with
  | [] => ([], [])
  | r :: rest =>
      let '(o, w) := normalize_step r in
      let '(out, ws) := normalize_loop rest in
      (match o with Some rec => rec :: out | None => out end, w ++ ws)
  end.

Definition normalize_tlsa_records (records : list stalwart_object)
  : list NormTLSA * list message :=
  let '(out, ws) := normalize_loop records in
  (sort_tlsa out, ws).

(** [tlsa_set] (source lines 121-122) *)
Definition tlsa_set (records : list NormTLSA) : gset (string * string) :=
  list_to_set (key_of <$> records).

(** ** The Cloudflare side of the Normalizer (source lines 189-212) *)

(** The body of the loop of [cloudflare_existing_tlsa] for one record:
    the canonical record and the record id it registers, if any. *)
Definition existing_step (r : cf_object) : option (NormTLSA * string) :=
  let name := normalize_name (get_str (cf_name r)) in
  let rid := get_str (cf_id r) in
  let data := default empty_data (cf_data r) in
  let usage := strip (get_str (td_usage data)) in
  let selector := strip (get_str (td_selector data)) in
  let matching := strip (get_str (td_matching_type data)) in
  let cert := strip (get_str (td_certificate data)) in
  if negb (nonempty name && nonempty usage && nonempty selector
           && nonempty matching && nonempty cert && nonempty rid)
  then None
  else
    let content := strip (usage +:+ " " +:+ selector +:+ " " +:+ matching +:+ " " +:+ cert) in
    Some ({| name := name; content := content |}, rid).

(** [ids_by_key.setdefault((rec.name, rec.content), []).append(rid)] *)
Definition ids_append (ids_by_key : gmap (string * string) (list string))
    (p : NormTLSA * string) : gmap (string * string) (list string) :=
  let k := key_of (fst p) in
  <[k := default [] (ids_by_key !! k) ++ [snd p]]> ids_by_key.

(** What [cloudflare_existing_tlsa] computes from the listed records. *)
Definition existing_of_raw (raw : list cf_object)
  : list NormTLSA * gmap (string * string) (list string) :=
  let accepted := omap existing_step raw in
  (sort_tlsa (fst <$> accepted), foldl ids_append ∅ accepted).



(** ** The Differ (source lines 376-377) *)

Definition to_delete (desired_set existing_set : gset (string * string))
  : gset (string * string) := existing_set ∖ desired_set.

Definition to_add (desired_set existing_set : gset (string * string))
  : gset (string * string) := desired_set ∖ existing_set.

(** Applying a plan to a set of records: deletions first, then additions. *)
Definition apply_plan (existing_set del add : gset (string * string))
  : gset (string * string) := (existing_set ∖ del) ∪ add.

(** ** The outside world *)

(** The JSON body of the create call (source lines 230-241). *)
Record tlsa_payload := {
  p_name : string;
  p_usage : Z;
  p_selector : Z;
  p_matching_type : Z;
  p_certificate : string;
  p_proxied : bool;
  p_ttl : Z
}.

(** The HTTP requests the script sends, by endpoint and parameters (URL
    formatting and percent-encoding are not modelled). *)
Inductive http_request :=
| GetStalwartRecords (base domain key : string)
| GetZones (domain key : string)
| GetDnsRecords (zone_id key : string) (record_type : option string)
    (per_page page : Z)
| DeleteDnsRecord (zone_id record_id key : string)
| PostDnsRecord (zone_id key : string) (payload : tlsa_payload)
| PostDiscord (webhook username text : string).

(** What [urlopen] followed by [json.loads] can give (source lines
    74-92). *)
Inductive http_reply :=
| ReplyJson (r : response)
| ReplyHttpError (status : Z) (detail : string)
| ReplyNetworkError (reason : string)
| ReplyInvalidJson (snippet : string).

(** What [subprocess.run(cmd, check=True)] can give. *)
Inductive cli_reply :=
| CliOk
| CliNotFound
| CliFailed (returncode : Z).

(** The providers and the operating system, seen from the script: a
    state of type [W] and the answer to each request in a given state. *)
Class World (W : Type) := {
  http : W -> http_request -> http_reply * W;
  subprocess_run : W -> list string -> cli_reply * W
}.

Inductive event :=
| EvHttp (req : http_request)
| EvRun (cmd : list string)
| EvSleep
| EvStdout (m : message)
| EvStderr (m : message).

(** A Cloudflare mutation call: a delete or a create. *)
Definition is_mutation (e : event) : bool :=
  match e with
  | EvHttp (DeleteDnsRecord _ _ _) | EvHttp (PostDnsRecord _ _ _) => true
  | _ => false
  end.


(** A read-side call: a GET to Stalwart or to Cloudflare. *)
Definition is_read (e : event) : bool :=
  match e with
  | EvHttp (GetStalwartRecords _ _ _) | EvHttp (GetZones _ _)
  | EvHttp (GetDnsRecords _ _ _ _ _) => true
  | _ => false
  end.

Definition mutations (t : list event) : list event := List.filter is_mutation t.
Definition reads (t : list event) : list event := List.filter is_read t.

(** The argument of [SystemExit] when it is a message. *)
Inductive exit_msg :=
| CliMissing (cli_path : string)
| CliExitCode (returncode : Z).

(** How a computation ends. *)
Inductive outcome (A : Type) :=
| Ret (a : A)
| Raise (e : exn)
| SysExit (m : exit_msg)
| OutOfFuel.
Arguments Ret {A} a.
Arguments Raise {A} e.
Arguments SysExit {A} m.
Arguments OutOfFuel {A}.

(** The exit status of the process, from how [raise SystemExit(main())]
    (source line 425) ends: the value [main] returns; 1 for an exception
    that escapes [main] and for a [SystemExit] carrying a message. *)
Definition exit_status (o : outcome Z) : option Z :=
  match o with
  | Ret n => Some n
  | Raise _ => Some 1%Z
  | SysExit _ => Some 1%Z
  | OutOfFuel => None
  end.

(** A computation: from a state of the world to an outcome, the next
    state and the events produced. *)
Definition M (W A : Type) : Type := W -> outcome A * W * list event.

Definition ret {W A} (a : A) : M W A := fun w => (Ret a, w, []).

Definition bind {W A B} (m : M W A) (k : A -> M W B) : M W B := fun w =>
  match m w with
  | (Ret a, w1, t1) => let '(o, w2, t2) := k a w1 in (o, w2, t1 ++ t2)
  | (Raise e, w1, t1) => (Raise e, w1, t1)
  | (SysExit x, w1, t1) => (SysExit x, w1, t1)
  | (OutOfFuel, w1, t1) => (OutOfFuel, w1, t1)
  end.

Definition raise {W A} (e : exn) : M W A := fun w => (Raise e, w, []).
Definition sys_exit {W A} (x : exit_msg) : M W A := fun w => (SysExit x, w, []).
Definition out_of_fuel {W A} : M W A := fun w => (OutOfFuel, w, []).
Definition emit {W} (e : event) : M W unit := fun w => (Ret tt, w, [e]).

(** [try: m  except Exception as e: handler(e)]; a [SystemExit] is not
    an [Exception] and passes through. *)
Definition try_except {W A} (m : M W A) (handler : exn -> M W A) : M W A :=
  fun w =>
    match m w with
    | (Raise e, w1, t1) => let '(o, w2, t2) := handler e w1 in (o, w2, t1 ++ t2)
    | r => r
    end.

Notation "x <- m ;; k" := (bind m (fun x => k))
  (at level 100, m at next level, right associativity).
Notation "m ;; k" := (bind m (fun _ => k))
  (at level 100, right associativity).

(** ** Command line and environment (source lines 315-322) *)

(** What the command line gives: the value of each option, if present. *)
Record Flags := {
  flag_domain : option string;
  flag_cf_api_key : option string;
  flag_stalwart_api_key : option string;
  flag_stalwart_endpoint_url : option string;
  flag_dry_run : bool;
  flag_verbose : bool
}.

(** The namespace [parse_args] returns. *)
Record Args := {
  arg_domain : option string;
  arg_cf_api_key : option string;
  arg_stalwart_api_key : option string;
  arg_stalwart_endpoint_url : option string;
  arg_dry_run : bool;
  arg_verbose : bool
}.

(** An option absent from the command line takes its default, read from
    the environment. *)
Definition parse_args (env : gmap string string) (flags : Flags) : Args :=
  {| arg_domain := from_option Some (env !! "DOMAIN_NAME") (flag_domain flags);
     arg_cf_api_key := from_option Some (env !! "CF_API_KEY") (flag_cf_api_key flags);
     arg_stalwart_api_key :=
       from_option Some (env !! "STALWART_API_KEY") (flag_stalwart_api_key flags);
     arg_stalwart_endpoint_url :=
       from_option Some
         (Some (default "http://stalwart:8080" (env !! "STALWART_ENDPOINT_URL")))
         (flag_stalwart_endpoint_url flags);
     arg_dry_run := flag_dry_run flags;
     arg_verbose := flag_verbose flags |}.

Section Script.
Context {W : Type} `{World W}.

Definition print (m : message) : M W unit := emit (EvStdout m).
Definition eprint (m : message) : M W unit := emit (EvStderr m).
Definition sleep : M W unit := emit EvSleep.

Fixpoint emit_all (es : list event) : M W unit :=
  match es with
  | [] => ret tt
  | e :: es' => emit e ;; emit_all es'
  end.

(** [for x in l: body(x)] *)
Fixpoint for_each {A} (l : list A) (body : A -> M W unit) : M W unit :=
  match l with
  | [] => ret tt
  | x :: l' => body x ;; for_each l' body
  end.

(** [http_json] (source lines 63-92) *)
Definition http_json (req : http_request) : M W response := fun w =>
  let '(reply, w') := http w req in
  (match reply with
   | ReplyJson r => Ret r
   | ReplyHttpError status detail => Raise (RuntimeError (HttpStatus status detail))
   | ReplyNetworkError reason => Raise (RuntimeError (NetworkFailure reason))
   | ReplyInvalidJson snippet => Raise (RuntimeError (InvalidJson snippet))
   end, w', [EvHttp req]).

(** [int(s)] raising [ValueError]. *)
Definition int_of_str (s : string) : M W Z :=
  match py_int s with
  | Some z => ret z
  | None => raise (ValueError (InvalidIntLiteral s))
  end.

(** [errors[0].get("message") if errors else "unknown error"], as the
    f-strings print it. *)
Definition error_message (resp : response) : string :=
  match resp_errors resp with
  | [] => "unknown error"
  | Some v :: _ => py_str v
  | None :: _ => "None"
  end.

Definition is_slash (c : ascii) : bool := (code c =? 47)%N.

(** [stalwart_fetch_tlsa] (source lines 125-136) *)
Definition stalwart_fetch_tlsa (domain endpoint_url stalwart_key : string)
  : M W (list NormTLSA) :=
  let base := rstrip_by is_slash endpoint_url in
  resp <- http_json (GetStalwartRecords base domain stalwart_key) ;;
  match resp_data resp with
  | None => ret []
  | Some data =>
      let tlsa :=
        filter (fun r => upper (get_str (st_type r)) = "TLSA") data in
      let '(out, warnings) := normalize_tlsa_records tlsa in
      emit_all (EvStderr <$> warnings) ;;
      ret out
  end.

(** [cloudflare_get_zone_id] (source lines 139-156) *)
Definition cloudflare_get_zone_id (domain cf_key : string) : M W string :=
  resp <- http_json (GetZones domain cf_key) ;;
  if negb (truthy_opt (resp_success resp))
  then raise (RuntimeError (ZoneLookupFailed (error_message resp)))
  else
    match resp_result resp with
    | None | Some [] => raise (RuntimeError (ZoneNotFound domain))
    | Some (zone :: _) =>
        if negb (truthy_opt (cf_id zone))
        then raise (RuntimeError ZoneWithoutId)
        else ret (get_str (cf_id zone))
    end.

(** [int(info.get("total_pages") or 1)] *)
Definition total_pages_of (resp : response) : M W Z :=
  match resp_total_pages resp with
  | Some v =>
      if truthy v then
        match py_int_scalar v with
        | Some z => ret z
        | None => raise (ValueError (InvalidIntLiteral (py_str v)))
        end
      else ret 1%Z
  | None => ret 1%Z
  end.

(** The loop of [cloudflare_list_dns_records] (source lines 163-182),
    from page [page] with [records] accumulated so far.  The loop has
    no bound of its own: [fuel] bounds the number of pages fetched. *)
Fixpoint list_pages (fuel : nat) (zone_id cf_key : string)
    (record_type : option string) (per_page page : Z)
    (records : list cf_object) : M W (list cf_object) :=
  match fuel with
  | O => out_of_fuel
  | S fuel' =>
      resp <- http_json (GetDnsRecords zone_id cf_key record_type per_page page) ;;
      if negb (truthy_opt (resp_success resp))
      then raise (RuntimeError (ListFailed (error_message resp)))
      else
        let records := records ++ default [] (resp_result resp) in
        total_pages <- total_pages_of resp ;;
        if (total_pages <=? page)%Z then ret records
        else list_pages fuel' zone_id cf_key record_type per_page (page + 1)%Z records
  end.

(** [cloudflare_list_dns_records] (source lines 159-183); a falsy
    [record_type] is left out of the query. *)
Definition cloudflare_list_dns_records (fuel : nat) (zone_id cf_key : string)
    (record_type : option string) (per_page : Z) : M W (list cf_object) :=
  let record_type :=
    match record_type with
    | Some t => if nonempty t then Some t else None
    | None => None
    end in
  list_pages fuel zone_id cf_key record_type per_page 1%Z [].

(** [cloudflare_existing_tlsa] (source lines 186-212) *)
Definition cloudflare_existing_tlsa (fuel : nat) (zone_id cf_key : string)
    (per_page : Z)
  : M W (list NormTLSA * gmap (string * string) (list string)) :=
  raw <- cloudflare_list_dns_records fuel zone_id cf_key (Some "TLSA") per_page ;;
  ret (existing_of_raw raw).

(** [cloudflare_delete_record] (source lines 215-221) *)
Definition cloudflare_delete_record (zone_id record_id cf_key : string)
  : M W unit :=
  resp <- http_json (DeleteDnsRecord zone_id record_id cf_key) ;;
  if negb (truthy_opt (resp_success resp))
  then raise (RuntimeError (DeleteFailed record_id (error_message resp)))
  else ret tt.

(** [cloudflare_add_tlsa] (source lines 224-249) *)
Definition cloudflare_add_tlsa (zone_id cf_key : string) (rec : NormTLSA)
    (ttl : Z) : M W unit :=
  let parts := split_sep " " 3 (content rec) in
  if negb (length parts =? 4)%nat
  then raise (ValueError (InvalidTLSAContent (name rec) (content rec)))
  else
    let usage := parts !!! 0%nat in
    let selector := parts !!! 1%nat in
    let matching_type := parts !!! 2%nat in
    let certificate := parts !!! 3%nat in
    usage <- int_of_str usage ;;
    selector <- int_of_str selector ;;
    matching_type <- int_of_str matching_type ;;
    let payload :=
      {| p_name := name rec; p_usage := usage; p_selector := selector;
         p_matching_type := matching_type; p_certificate := certificate;
         p_proxied := false; p_ttl := ttl |} in
    resp <- http_json (PostDnsRecord zone_id cf_key payload) ;;
    if negb (truthy_opt (resp_success resp))
    then raise (RuntimeError (AddFailed (name rec) (error_message resp)))
    else ret tt.

(** [log] is called at source lines 265, 294, 297 and 300, but the
    module neither defines nor imports this name: looking it up raises
    [NameError] before the argument is evaluated. *)
Definition log (m : message) : M W unit := raise (NameError "log").

(** [_post_discord] (source lines 252-265) *)
Definition _post_discord (webhook_url username text : string) : M W unit :=
  try_except
    (http_json (PostDiscord webhook_url username text) ;; ret tt)
    (fun e => log (LogDiscordFailed e)).

(** [os.environ.get(key, default).strip() or default] *)
Definition env_or (env : gmap string string) (key dflt : string) : string :=
  let v := strip (default dflt (env !! key)) in
  if nonempty v then v else dflt.

(** [reload_stalwart_certificates_from_env] (source lines 268-311) *)
Definition reload_stalwart_certificates_from_env
    (env : gmap string string) (dry_run : bool) : M W unit :=
  let discord_webhook := strip (default "" (env !! "DISCORD_WEBHOOK")) in
  let discord_username := env_or env "DISCORD_USERNAME" "Stalwart" in
  (if nonempty discord_webhook
   then _post_discord discord_webhook discord_username
          "Reloading Stalwart certificates..."
   else ret tt) ;;
  let cli_path := env_or env "STALWART_CLI_PATH" "/opt/bin/stalwart-cli" in
  let endpoint_url := env_or env "STALWART_ENDPOINT_URL" "http://stalwart:8080" in
  let api_key := strip (default "" (env !! "STALWART_API_KEY")) in
  if negb (nonempty endpoint_url) || negb (nonempty api_key)
  then log LogSkipReload
  else
    log LogReloading ;;
    let cmd := [cli_path; "-u"; endpoint_url; "-c"; api_key;
                "server"; "reload-certificates"] in
    if dry_run then log (LogWouldRun cmd)
    else fun w =>
      let '(reply, w') := subprocess_run w cmd in
      (match reply with
       | CliOk => Ret tt
       | CliNotFound => SysExit (CliMissing cli_path)
       | CliFailed returncode => SysExit (CliExitCode returncode)
       end, w', [EvRun cmd]).
(** ** The Orchestrator (source lines 314-421) *)

(** [len(s) > 0] for a set, as [if s:] tests it. *)
Definition set_nonempty (s : gset (string * string)) : bool :=
  negb (bool_decide (s = ∅)).

(** The delete phase (source lines 396-406). *)
Definition delete_stale (zone_id cf_key : string)
    (ids_by_key : gmap (string * string) (list string))
    (to_delete : gset (string * string)) : M W unit :=
  for_each (sorted_keys to_delete) (fun k =>
    let ids := default [] (ids_by_key !! k) in
    match ids with
    | [] => eprint (WarnNoRecordId (fst k) (snd k))
    | _ =>
        for_each ids (fun rid =>
          cloudflare_delete_record zone_id rid cf_key ;;
          print (MsgDeleted (fst k) (snd k)) ;;
          sleep)
    end).

(** The add phase (source lines 410-414). *)
Definition add_missing (zone_id cf_key : string) (ttl : Z)
    (to_add : gset (string * string)) : M W unit :=
  for_each (sorted_keys to_add) (fun k =>
    let rec := {| name := fst k; content := snd k |} in
    cloudflare_add_tlsa zone_id cf_key rec ttl ;;
    print (MsgAdded (fst k) (snd k)) ;;
    sleep).

(** The body of the [try] block of [main] (source lines 328-417); its
    value is the value [main] returns.  [fuel] bounds the pagination
    loop of [cloudflare_list_dns_records]. *)
Definition main_try (fuel : nat) (env : gmap string string) (args : Args)
  : M W Z :=
  let domain := strip (default "" (arg_domain args)) in
  let cf_key := strip (default "" (arg_cf_api_key args)) in
  let stalwart_key := strip (default "" (arg_stalwart_api_key args)) in
  let stalwart_url := strip (default "" (arg_stalwart_endpoint_url args)) in
  if negb (nonempty domain) then raise (ValueError MissingDomain)
  else if negb (nonempty cf_key) then raise (ValueError MissingCloudflareKey)
  else if negb (nonempty stalwart_key) then raise (ValueError MissingStalwartKey)
  else if negb (nonempty stalwart_url) then raise (ValueError MissingStalwartURL)
  else
    per_page <- int_of_str (default "100" (env !! "CF_PER_PAGE")) ;;
    ttl <- int_of_str (default "120" (env !! "CF_TTL")) ;;
    print (MsgStarting domain) ;;
    print MsgFetchingStalwart ;;
    desired <- stalwart_fetch_tlsa domain stalwart_url stalwart_key ;;
    match desired with
    | [] => print MsgNoneInStalwart ;; ret 0%Z
    | _ =>
        print (MsgFoundStalwart (length desired)) ;;
        print (MsgFetchingZone domain) ;;
        zone_id <- cloudflare_get_zone_id domain cf_key ;;
        print (MsgZoneId zone_id) ;;
        print MsgFetchingCloudflare ;;
        found <- cloudflare_existing_tlsa fuel zone_id cf_key per_page ;;
        let existing := fst found in
        let ids_by_key := snd found in
        print (MsgFoundCloudflare (length existing)) ;;
        let desired_set := tlsa_set desired in
        let existing_set := tlsa_set existing in
        (if arg_verbose args then
           print MsgNormalizedStalwart ;;
           for_each desired (fun r => print (MsgRecord (name r) (content r))) ;;
           print MsgNormalizedCloudflare ;;
           for_each existing (fun r => print (MsgRecord (name r) (content r)))
         else ret tt) ;;
        if bool_decide (desired_set = existing_set)
        then print MsgUpToDate ;; ret 0%Z
        else
          let to_delete := to_delete desired_set existing_set in
          let to_add := to_add desired_set existing_set in
          print MsgPlanned ;;
          print (MsgPlanDelete (size to_delete)) ;;
          print (MsgPlanAdd (size to_add)) ;;
          if arg_dry_run args
          then print MsgDryRun ;; ret 0%Z
          else
            (if set_nonempty to_delete
             then print MsgDeleting ;;
                  delete_stale zone_id cf_key ids_by_key to_delete
             else ret tt) ;;
            (if set_nonempty to_add
             then print MsgAdding ;;
                  add_missing zone_id cf_key ttl to_add
             else ret tt) ;;
            print MsgCompleted ;;
            ret 0%Z
    end.

(** [main] (source lines 314-421), from the parsed arguments on. *)
Definition main (fuel : nat) (env : gmap string string) (flags : Flags)
  : M W Z :=
  let args := parse_args env flags in
  reload_stalwart_certificates_from_env env (arg_dry_run args) ;;
  try_except (main_try fuel env args)
    (fun ex => eprint (ErrorLine ex) ;; ret 1%Z).
End Script.

(** ** A scripted world

    A world whose state is a table of answers, one per endpoint; it
    answers from the table and never changes. *)
Record script := {
  on_stalwart : http_reply;
  on_zones : http_reply;
  on_list : Z -> http_reply;
  on_delete : string -> http_reply;
  on_create : tlsa_payload -> http_reply;
  on_discord : http_reply;
  on_cli : cli_reply
}.

Global Instance script_world : World script := {|
  http w req :=
    (match req with
     | GetStalwartRecords _ _ _ => on_stalwart w
     | GetZones _ _ => on_zones w
     | GetDnsRecords _ _ _ _ page => on_list w page
     | DeleteDnsRecord _ rid _ => on_delete w rid
     | PostDnsRecord _ _ payload => on_create w payload
     | PostDiscord _ _ _ => on_discord w
     end, w);
  subprocess_run w _ := (on_cli w, w)
|}.

Definition empty_response : response :=
  {| resp_data := None; resp_success := None; resp_errors := [];
     resp_result := None; resp_total_pages := None |}.

Definition ok_response : response :=
  {| resp_data := None; resp_success := Some (JBool true); resp_errors := [];
     resp_result := None; resp_total_pages := None |}.

(** Predicates on strings used in the statements. *)
Fixpoint all_chars (p : ascii -> bool) (s : string) : bool :=
  match s with
  | EmptyString => true
  | String c s' => p c && all_chars p s'
  end.

Definition first_char (s : string) : option ascii :=
  match s with EmptyString => None | String c _ => Some c end.

Fixpoint last_char (s : string) : option ascii :=
  match s with
  | EmptyString => None
  | String c EmptyString => Some c
  | String _ s' => last_char s'
  end.

(** A token: a non-empty string without whitespace. *)
Definition is_token (s : string) : bool :=
  nonempty s && all_chars (fun c => negb (is_space c)) s.

(** The normalised name and the whitespace-separated pieces of the
    content of a raw record, as [normalize_tlsa_records] reads them. *)
Definition name_of (r : stalwart_object) : string :=
  normalize_name (get_str (st_name r)).

Definition tokens_of (r : stalwart_object) : list string :=
  split_ws (get_str (st_content r)).


(** Sample records. *)
Definition cf_sample : cf_object :=
  {| cf_id := Some (JStr "rec-1");
     cf_name := Some (JStr "_25._tcp.Mail.Example.com.");
     cf_data := Some {| td_usage := Some (JInt 3); td_selector := Some (JInt 1);
                        td_matching_type := Some (JInt 1);
                        td_certificate := Some (JStr " abcd ") |} |}.


Definition st_sample : stalwart_object :=
  {| st_type := Some (JStr "TLSA");
     st_name := Some (JStr "_25._tcp.mail.example.com.");
     st_content := Some (JStr "3 1 1 abcd") |}.

(** A field of a canonical content: non-empty, without the space
    character. *)
Definition is_space_char (c : ascii) : bool := Ascii.eqb c " ".

Definition is_field (s : string) : bool :=
  nonempty s && all_chars (fun c => negb (is_space_char c)) s.

(** A world for the zone lookup: two active zones match the domain. *)
Definition two_zones : script :=
  {| on_stalwart := ReplyJson empty_response;
     on_zones :=
       ReplyJson
         {| resp_data := None; resp_success := Some (JBool true);
            resp_errors := [];
            resp_result :=
              Some [ {| cf_id := Some (JStr "zone-a"); cf_name := Some (JStr "example.com");
                        cf_data := None |};
                     {| cf_id := Some (JStr "zone-b"); cf_name := Some (JStr "example.com");
                        cf_data := None |} ];
            resp_total_pages := None |};
     on_list := fun _ => ReplyJson ok_response;
     on_delete := fun _ => ReplyJson ok_response;
     on_create := fun _ => ReplyJson ok_response;
     on_discord := ReplyJson empty_response;
     on_cli := CliOk |}.

(** A computation none of whose events satisfies [p], in any world. *)
Definition silent {W A} (p : event -> bool) (m : M W A) : Prop :=
  ∀ w, List.filter p (m w).2 = [].

(** A complete configuration, a Stalwart with one TLSA record and a
    Cloudflare zone that already holds it. *)
Definition env_sample : gmap string string :=
  {[ "DOMAIN_NAME" := "example.com"; "CF_API_KEY" := "cf-token";
     "STALWART_API_KEY" := "stalwart-token";
     "STALWART_ENDPOINT_URL" := "http://stalwart:8080" ]}.

Definition no_flags : Flags :=
  {| flag_domain := None; flag_cf_api_key := None;
     flag_stalwart_api_key := None; flag_stalwart_endpoint_url := None;
     flag_dry_run := false; flag_verbose := false |}.

Definition in_sync : script :=
  {| on_stalwart :=
       ReplyJson
         {| resp_data := Some [st_sample]; resp_success := None;
            resp_errors := []; resp_result := None; resp_total_pages := None |};
     on_zones :=
       ReplyJson
         {| resp_data := None; resp_success := Some (JBool true);
            resp_errors := [];
            resp_result :=
              Some [ {| cf_id := Some (JStr "zone-a");
                        cf_name := Some (JStr "example.com"); cf_data := None |} ];
            resp_total_pages := None |};
     on_list := fun _ =>
       ReplyJson
         {| resp_data := None; resp_success := Some (JBool true);
            resp_errors := []; resp_result := Some [cf_sample];
            resp_total_pages := Some (JInt 1) |};
     on_delete := fun _ => ReplyJson ok_response;
     on_create := fun _ => ReplyJson ok_response;
     on_discord := ReplyJson empty_response;
     on_cli := CliOk |}.


(** The arguments of a run, with the dry-run flag set or cleared. *)
Definition with_dry_run (b : bool) (a : Args) : Args :=
  {| arg_domain := arg_domain a; arg_cf_api_key := arg_cf_api_key a;
     arg_stalwart_api_key := arg_stalwart_api_key a;
     arg_stalwart_endpoint_url := arg_stalwart_endpoint_url a;
     arg_dry_run := b; arg_verbose := arg_verbose a |}.

Definition flags_with_dry_run (b : bool) (f : Flags) : Flags :=
  {| flag_domain := flag_domain f; flag_cf_api_key := flag_cf_api_key f;
     flag_stalwart_api_key := flag_stalwart_api_key f;
     flag_stalwart_endpoint_url := flag_stalwart_endpoint_url f;
     flag_dry_run := b; flag_verbose := flag_verbose f |}.

(** A string without whitespace. *)
Definition no_whitespace (s : string) : bool :=
  all_chars (fun c => negb (is_space c)) s.

(** A canonical record read back as a raw Stalwart record. *)
Definition raw_of (rec : NormTLSA) : stalwart_object :=
  {| st_type := Some (JStr "TLSA");
     st_name := Some (JStr (name rec));
     st_content := Some (JStr (content rec)) |}.

(** The record ids registered under a key: those of the accepted
    Cloudflare records with that key, in the order of the listing. *)
Definition ids_for (accepted : list (NormTLSA * string)) (k : string * string)
  : list string :=
  snd <$> filter (fun p => key_of (fst p) = k) accepted.

(** Delete calls and create calls. *)
Definition is_delete_call (e : event) : bool :=
  match e with EvHttp (DeleteDnsRecord _ _ _) => true | _ => false end.

Definition is_create_call (e : event) : bool :=
  match e with EvHttp (PostDnsRecord _ _ _) => true | _ => false end.

(** The delete calls a plan asks for: for each stale key in sorted order,
    one call per record id registered under the key. *)
Definition planned_deletes (zone_id cf_key : string)
    (ids_by_key : gmap (string * string) (list string))
    (stale : gset (string * string)) : list event :=
  flat_map
    (fun k => (fun rid => EvHttp (DeleteDnsRecord zone_id rid cf_key))
                <$> default [] (ids_by_key !! k))
    (sorted_keys stale).

(** The body of the create call for a canonical record, when its content
    has four pieces of which the first three are integers. *)
Definition payload_of (rec : NormTLSA) (ttl : Z) : option tlsa_payload :=
  match split_sep " " 3 (content rec) with
  | [usage; selector; matching_type; certificate] =>
      match py_int usage, py_int selector, py_int matching_type with
      | Some u, Some s, Some m =>
          Some {| p_name := name rec; p_usage := u; p_selector := s;
                  p_matching_type := m; p_certificate := certificate;
                  p_proxied := false; p_ttl := ttl |}
      | _, _, _ => None
      end
  | _ => None
  end.

(** The create calls a plan asks for: one per missing key that has a
    payload, in sorted order. *)
Definition planned_creates (zone_id cf_key : string) (ttl : Z)
    (missing : gset (string * string)) : list event :=
  flat_map
    (fun k => option_list
                ((fun p => EvHttp (PostDnsRecord zone_id cf_key p))
                   <$> payload_of {| name := fst k; content := snd k |} ttl))
    (sorted_keys missing).


(** The [try] statement of [main] (source lines 327-421). *)
Definition main_guarded {W : Type} `{World W} (fuel : nat)
    (env : gmap string string) (args : Args) : M W Z :=
  try_except (main_try fuel env args)
    (fun ex => eprint (ErrorLine ex) ;; ret 1%Z).

(** A computation that never ends in [SystemExit] and whose value, when
    it returns one, satisfies [Q]. *)
Definition returns {W A} (Q : A -> Prop) (m : M W A) : Prop :=
  ∀ w, match (m w).1.1 with
       | Ret a => Q a
       | SysExit _ => False
       | _ => True
       end.

(** Deletes come before creates: the mutation calls of a trace are a run
    of delete calls followed by a run of create calls. *)
Definition deletes_then_creates (t : list event) : Prop :=
  ∃ ds cs, mutations t = ds ++ cs
           ∧ Forall (fun e => is_delete_call e = true) ds
           ∧ Forall (fun e => is_create_call e = true) cs.

(** A decimal digit. *)
Definition is_digit (c : ascii) : bool :=
  ((48 <=? code c) && (code c <=? 57))%N.

(** [env_required] (source lines 56-60); [inl] stands for the
    [ValueError] "Missing required environment variable". *)
Inductive env_error :=
| MissingRequiredEnv (key : string).

Definition env_required (env : gmap string string) (key : string)
  : env_error + string :=
  let val := strip (default "" (env !! key)) in
  if negb (nonempty val) then inl (MissingRequiredEnv key) else inr val.

(** An entry of Stalwart's list whose type is TLSA, in any letter case. *)
Definition is_tlsa_entry (r : stalwart_object) : Prop :=
  lower (get_str (st_type r)) = "tlsa".

Global Instance is_tlsa_entry_dec (r : stalwart_object) : Decision (is_tlsa_entry r).
Proof. unfold is_tlsa_entry. apply _. Defined.

(** The apply phase of [main] (source lines 393-417): what a live run
    does after printing the plan. *)
Definition apply_changes {W : Type} `{World W} (zone_id cf_key : string) (ttl : Z)
    (ids_by_key : gmap (string * string) (list string))
    (stale missing : gset (string * string)) : M W Z :=
  (if set_nonempty stale
   then print MsgDeleting ;; delete_stale zone_id cf_key ids_by_key stale
   else ret tt) ;;
  (if set_nonempty missing
   then print MsgAdding ;; add_missing zone_id cf_key ttl missing
   else ret tt) ;;
  print MsgCompleted ;;
  ret 0%Z.

(** A Cloudflare zone that holds a stale record instead of the desired
    one. *)
Definition cf_stale : cf_object :=
  {| cf_id := Some (JStr "rec-9");
     cf_name := Some (JStr "_25._tcp.mail.example.com");
     cf_data := Some {| td_usage := Some (JInt 3); td_selector := Some (JInt 1);
                        td_matching_type := Some (JInt 1);
                        td_certificate := Some (JStr "ffff") |} |}.

Definition out_of_sync : script :=
  {| on_stalwart := on_stalwart in_sync;
     on_zones := on_zones in_sync;
     on_list := fun _ =>
       ReplyJson
         {| resp_data := None; resp_success := Some (JBool true);
            resp_errors := []; resp_result := Some [cf_stale];
            resp_total_pages := Some (JInt 1) |};
     on_delete := fun _ => ReplyJson ok_response;
     on_create := fun _ => ReplyJson ok_response;
     on_discord := on_discord in_sync;
     on_cli := on_cli in_sync |}.

(** * Properties *)

(** ** Strings *)

Lemma app_nil_l (s : string) : "" +:+ s = s.
Proof. reflexivity. Qed.

Lemma app_cons (c : ascii) (s t : string) :
  String c s +:+ t = String c (s +:+ t).
Proof. reflexivity. Qed.

Lemma app_nil_r (s : string) : s +:+ "" = s.
Proof. induction s as [|c s IH]; [done|]. by rewrite app_cons, IH. Qed.

Lemma app_assoc (s t u : string) : (s +:+ t) +:+ u = s +:+ t +:+ u.
Proof. induction s as [|c s IH]; [done|]. by rewrite !app_cons, IH. Qed.

Lemma rstrip_by_decomp (p : ascii -> bool) (s : string) :
  ∃ suf, s = rstrip_by p s +:+ suf ∧ all_chars p suf = true.
Proof.
  induction s as [|c s (suf & Hs & Hsuf)]; [by exists ""|].
  simpl. destruct (rstrip_by p s) as [|c' r] eqn:Hr.
  - rewrite app_nil_l in Hs. subst suf. destruct (p c) eqn:Hc.
    + exists (String c s). split; [done|]. simpl. by rewrite Hc, Hsuf.
    + exists s. by rewrite app_cons, app_nil_l.
  - exists suf. split; [|done]. by rewrite app_cons, <- Hs.
Qed.

Lemma rstrip_by_last (p : ascii -> bool) (s : string) (c : ascii) :
  last_char (rstrip_by p s) = Some c → p c = false.
Proof.
  induction s as [|a s IH]; [done|]. simpl.
  destruct (rstrip_by p s) as [|c' r] eqn:Hr.
  - destruct (p a) eqn:Ha; [done|]. simpl. by intros [= <-].
  - simpl in *. done.
Qed.

Lemma lstrip_by_decomp (p : ascii -> bool) (s : string) :
  ∃ pre, s = pre +:+ lstrip_by p s ∧ all_chars p pre = true.
Proof.
  induction s as [|c s (pre & Hs & Hpre)]; [by exists ""|].
  simpl. destruct (p c) eqn:Hc.
  - exists (String c pre). rewrite app_cons, <- Hs. simpl. by rewrite Hc, Hpre.
  - by exists "".
Qed.

Lemma lstrip_by_first (p : ascii -> bool) (s : string) (c : ascii) :
  first_char (lstrip_by p s) = Some c → p c = false.
Proof.
  induction s as [|a s IH]; [done|]. simpl.
  destruct (p a) eqn:Ha; [done|]. simpl. by intros [= <-].
Qed.

Lemma rstrip_by_first (p : ascii -> bool) (s : string) (c : ascii) :
  first_char (rstrip_by p s) = Some c → first_char s = Some c.
Proof.
  destruct s as [|a s]; [done|]. simpl.
  destruct (rstrip_by p s); [destruct (p a)|]; done.
Qed.

(** [strip] removes whitespace at both ends and nothing else. *)
Lemma strip_decomp (s : string) :
  ∃ pre suf, s = pre +:+ strip s +:+ suf
    ∧ all_chars is_space pre = true ∧ all_chars is_space suf = true.
Proof.
  destruct (lstrip_by_decomp is_space s) as (pre & Hs & Hpre).
  destruct (rstrip_by_decomp is_space (lstrip_by is_space s)) as (suf & Hs' & Hsuf).
  exists pre, suf. unfold strip. by rewrite <- Hs', <- Hs.
Qed.

Lemma strip_ends (s : string) (c : ascii) :
  first_char (strip s) = Some c ∨ last_char (strip s) = Some c →
  is_space c = false.
Proof.
  intros [Hc|Hc].
  - eapply lstrip_by_first, rstrip_by_first, Hc.
  - eapply rstrip_by_last, Hc.
Qed.

(** ** Name normalisation *)

(** C8, as the code has it: [normalize_name] returns the name trimmed of
    surrounding whitespace and lowercased, with every trailing dot
    removed: what is cut from the lowercased trimmed name is a run of
    dots, and the result does not end with a dot. *)
Theorem normalize_name_strips_all_trailing_dots (raw : string) :
  (∃ pre suf, raw = pre +:+ strip raw +:+ suf
     ∧ all_chars is_space pre = true ∧ all_chars is_space suf = true)
  ∧ (∀ c, first_char (strip raw) = Some c ∨ last_char (strip raw) = Some c →
          is_space c = false)
  ∧ (∃ dots, lower (strip raw) = normalize_name raw +:+ dots
       ∧ all_chars is_dot dots = true)
  ∧ last_char (normalize_name raw) ≠ Some "."%char.
Proof.
  split; [apply strip_decomp|]. split; [apply strip_ends|]. split.
  - apply rstrip_by_decomp.
  - intros Hl. by apply rstrip_by_last in Hl.
Qed.

(** C8, as stated, fails: a name ending in two dots loses both, where
    stripping one trailing dot would keep the first. *)
Lemma normalize_name_two_dots :
  normalize_name " Mail.Example.COM.. " = "mail.example.com"
  ∧ normalize_name_spec " Mail.Example.COM.. " = "mail.example.com."
  ∧ normalize_name " Mail.Example.COM.. " ≠ normalize_name_spec " Mail.Example.COM.. ".
Proof. repeat split; [vm_compute; reflexivity..|vm_compute; discriminate]. Qed.

Example normalize_name_ex1 :
  normalize_name "  _25._TCP.Mail.Example.COM.  " = "_25._tcp.mail.example.com".
Proof. reflexivity. Qed.

Example split_ws_ex1 : split_ws "  3 1   1 abcd " = ["3"; "1"; "1"; "abcd"].
Proof. reflexivity. Qed.

Example split_sep_ex1 : split_sep " " 3 "3 1 1 ab cd" = ["3"; "1"; "1"; "ab cd"].
Proof. reflexivity. Qed.

Example split_sep_ex2 : split_sep " " 3 "3 1  " = ["3"; "1"; ""; ""].
Proof. reflexivity. Qed.

Example py_int_ex : py_int " -1_000 " = Some (-1000)%Z /\ py_int "1__0" = None /\ py_int "" = None /\ py_int "007" = Some 7%Z.
Proof. repeat split; reflexivity. Qed.

Example py_str_ex : py_str (JInt (-3)) = "-3".
Proof. reflexivity. Qed.

Example normalize_ex :
  normalize_tlsa_records
    [ {| st_type := Some (JStr "TLSA"); st_name := Some (JStr "B.example.com."); st_content := Some (JStr "3 1 1 abcd extra") |};
      {| st_type := Some (JStr "TLSA"); st_name := Some (JStr "a.example.com"); st_content := Some (JStr " 3  1 1 ff ") |};
      {| st_type := Some (JStr "TLSA"); st_name := Some (JStr "a.example.com"); st_content := Some (JStr "3 1") |} ]
  = ([ {| name := "a.example.com"; content := "3 1 1 ff" |};
       {| name := "b.example.com"; content := "3 1 1 abcd" |} ],
     [ WarnInvalidTLSA "a.example.com" "3 1" ]).
Proof. vm_compute. reflexivity. Qed.

(** ** Splitting on whitespace *)

Lemma split_ws_cons_space (c : ascii) (s : string) :
  is_space c = true → split_ws (String c s) = split_ws s.
Proof. intros Hc. simpl. by rewrite Hc. Qed.

Lemma split_ws_cons_nonspace (c : ascii) (s : string) :
  is_space c = false →
  split_ws (String c s) =
    match first_char s with
    | None => [String c ""]
    | Some c' =>
        if is_space c' then String c "" :: split_ws s
        else match split_ws s with
             | t :: ts => String c t :: ts
             | [] => [String c ""]
             end
    end.
Proof. intros Hc. simpl. rewrite Hc. by destruct s. Qed.

Lemma split_ws_all_space (s : string) :
  all_chars is_space s = true → split_ws s = [].
Proof.
  induction s as [|c s IH]; [done|]. simpl.
  intros [Hc Hs]%andb_prop. rewrite Hc. auto.
Qed.

Lemma split_ws_nonempty (s : string) (c : ascii) :
  first_char s = Some c → is_space c = false → split_ws s ≠ [].
Proof.
  destruct s as [|a s]; [done|]. intros [= ->] Hc.
  rewrite split_ws_cons_nonspace by done.
  destruct (first_char s) as [c'|]; [|done].
  destruct (is_space c'); [done|]. by destruct (split_ws s).
Qed.

Lemma split_ws_is_token (s t : string) :
  t ∈ split_ws s → is_token t = true.
Proof.
  revert t. induction s as [|c s IH]; intros t; [by intros ?%elem_of_nil|].
  destruct (is_space c) eqn:Hc.
  { rewrite split_ws_cons_space by done. apply IH. }
  rewrite split_ws_cons_nonspace by done.
  assert (is_token (String c "") = true) as Hone.
  { unfold is_token. simpl. by rewrite Hc. }
  destruct (first_char s) as [c'|].
  2:{ by intros ->%list_elem_of_singleton. }
  destruct (is_space c').
  { intros [->| ?]%elem_of_cons; auto. }
  destruct (split_ws s) as [|t' ts].
  { by intros ->%list_elem_of_singleton. }
  intros [->| ?]%elem_of_cons.
  - assert (is_token t' = true) as Ht' by (apply IH; left).
    unfold is_token in *. simpl. rewrite Hc. simpl.
    by apply andb_prop in Ht' as [_ ->].
  - apply IH. by right.
Qed.

Lemma split_ws_lstrip (pre s : string) :
  all_chars is_space pre = true → split_ws (pre +:+ s) = split_ws s.
Proof.
  induction pre as [|c pre IH]; [done|]. cbn [all_chars].
  intros [Hc Hpre]%andb_prop. rewrite app_cons, split_ws_cons_space; auto.
Qed.

Lemma first_char_app (s t : string) :
  first_char (s +:+ t) = match first_char s with Some c => Some c | None => first_char t end.
Proof. by destruct s. Qed.

Lemma all_chars_first (p : ascii -> bool) (s : string) (c : ascii) :
  all_chars p s = true → first_char s = Some c → p c = true.
Proof. destruct s; [done|]. simpl. by intros [? _]%andb_prop [= <-]. Qed.

Lemma split_ws_rstrip (s suf : string) :
  all_chars is_space suf = true → split_ws (s +:+ suf) = split_ws s.
Proof.
  intros Hsuf. induction s as [|c s IH].
  { rewrite app_nil_l. by apply split_ws_all_space. }
  rewrite app_cons. destruct (is_space c) eqn:Hc.
  { by rewrite !split_ws_cons_space. }
  rewrite !split_ws_cons_nonspace by done.
  rewrite first_char_app, IH. destruct (first_char s) as [c'|] eqn:Hs; [done|].
  destruct s; [|done].
  destruct (first_char suf) as [c'|] eqn:Hf; [|done].
  by rewrite (all_chars_first _ _ _ Hsuf Hf).
Qed.

Lemma split_ws_strip (s : string) : split_ws (strip s) = split_ws s.
Proof.
  destruct (strip_decomp s) as (pre & suf & Hs & Hpre & Hsuf).
  rewrite Hs at 2. by rewrite split_ws_lstrip, split_ws_rstrip.
Qed.

Lemma strip_empty_iff (s : string) :
  nonempty (strip s) = false ↔ split_ws s = [].
Proof.
  rewrite <- split_ws_strip. split.
  - by destruct (strip s).
  - intros Hs. destruct (strip s) as [|c t] eqn:Ht; [done|].
    exfalso. eapply (split_ws_nonempty (strip s) c); rewrite ?Ht; try done.
    apply (strip_ends s). left. by rewrite Ht.
Qed.

Lemma rstrip_by_id (p : ascii -> bool) (s : string) :
  all_chars (fun c => negb (p c)) s = true → rstrip_by p s = s.
Proof.
  induction s as [|c s IH]; [done|]. simpl.
  intros [Hc Hs]%andb_prop. rewrite IH by done.
  destruct s; [|done]. by apply negb_true_iff in Hc as ->.
Qed.

Lemma lstrip_by_id (p : ascii -> bool) (s : string) :
  all_chars (fun c => negb (p c)) s = true → lstrip_by p s = s.
Proof.
  destruct s as [|c s]; [done|]. simpl.
  intros [Hc _]%andb_prop. by apply negb_true_iff in Hc as ->.
Qed.

Lemma strip_token (t : string) : is_token t = true → strip t = t.
Proof.
  intros [_ Ht]%andb_prop. unfold strip.
  by rewrite lstrip_by_id, rstrip_by_id.
Qed.

(** The comprehension of source line 107 keeps every piece of
    [content.split()] as it is. *)
Lemma parts_comprehension (s : string) :
  strip <$> filter (fun p => nonempty (strip p) = true) (split_ws s) = split_ws s.
Proof.
  assert (∀ l : list string, (∀ t, t ∈ l → is_token t = true) →
            strip <$> filter (fun p => nonempty (strip p) = true) l = l) as Hl.
  { induction l as [|t l IH]; [done|]. intros Htok.
    assert (is_token t = true) as Ht by (apply Htok; left).
    rewrite filter_cons. rewrite (strip_token t Ht).
    apply andb_prop in Ht as Hne. destruct Hne as [Hne _].
    rewrite decide_True by done. rewrite fmap_cons, (strip_token t Ht).
    f_equal. apply IH. intros ??. apply Htok. by right. }
  apply Hl. intros t. apply split_ws_is_token.
Qed.

(** ** The Normalizer *)

Lemma length_take_4 {A} (l : list A) :
  negb (length (take 4 l) =? 4)%nat = (length l <? 4)%nat.
Proof.
  rewrite length_take.
  destruct (Nat.ltb_spec (length l) 4), (Nat.eqb_spec (4 `min` length l) 4);
    simpl; lia.
Qed.

Lemma normalize_step_eq (r : stalwart_object) :
  normalize_step r =
    if negb (nonempty (name_of r)) || (length (tokens_of r) =? 0)%nat
    then (None, [])
    else if (length (tokens_of r) <? 4)%nat
    then (None, [WarnInvalidTLSA (name_of r) (strip (get_str (st_content r)))])
    else (Some {| name := name_of r;
                  content := join " " (take 4 (tokens_of r)) |}, []).
Proof.
  unfold normalize_step, name_of, tokens_of.
  rewrite parts_comprehension, split_ws_strip, length_take_4.
  destruct (nonempty (normalize_name _)); [|done].
  destruct (nonempty (strip _)) eqn:Hne; cbn [negb orb].
  - destruct (split_ws _) as [|t ts] eqn:Hts; [|done].
    apply strip_empty_iff in Hts. congruence.
  - apply strip_empty_iff in Hne. by rewrite Hne.
Qed.

Lemma normalize_loop_out (records : list stalwart_object) (rec : NormTLSA) :
  rec ∈ (normalize_loop records).1 ↔
  ∃ r, r ∈ records ∧ (normalize_step r).1 = Some rec.
Proof.
  induction records as [|r rest IH]; simpl.
  { split; [by intros ?%elem_of_nil|]. by intros (? & ?%elem_of_nil & _). }
  destruct (normalize_step r) as [o w] eqn:Hr.
  destruct (normalize_loop rest) as [out ws]. simpl in *.
  assert (rec ∈ match o with Some x => x :: out | None => out end
          ↔ o = Some rec ∨ rec ∈ out) as ->.
  { destruct o as [x|]; [rewrite elem_of_cons|]; split.
    - intros [->|?]; auto.
    - intros [[= ->]|?]; auto.
    - auto.
    - by intros [?|?]. }
  rewrite IH. split.
  - intros [->|(r' & ? & ?)].
    + exists r. rewrite Hr. split; [left|done].
    + exists r'. split; [by right|done].
  - intros (r' & [->|?]%elem_of_cons & Hr').
    + left. by rewrite Hr in Hr'.
    + right. eauto.
Qed.

Lemma normalize_loop_warn (records : list stalwart_object) (m : message) :
  m ∈ (normalize_loop records).2 ↔
  ∃ r, r ∈ records ∧ m ∈ (normalize_step r).2.
Proof.
  induction records as [|r rest IH]; simpl.
  { split; [by intros ?%elem_of_nil|]. by intros (? & ?%elem_of_nil & _). }
  destruct (normalize_step r) as [o w] eqn:Hr.
  destruct (normalize_loop rest) as [out ws]. simpl in *.
  rewrite elem_of_app, IH. split.
  - intros [?|(r' & ? & ?)].
    + exists r. rewrite Hr. split; [left|done].
    + exists r'. split; [by right|done].
  - intros (r' & [->|?]%elem_of_cons & Hr').
    + left. by rewrite Hr in Hr'.
    + right. eauto.
Qed.

Lemma normalize_records_fst (records : list stalwart_object) :
  (normalize_tlsa_records records).1 = sort_tlsa (normalize_loop records).1.
Proof. unfold normalize_tlsa_records. by destruct (normalize_loop records). Qed.

Lemma normalize_records_snd (records : list stalwart_object) :
  (normalize_tlsa_records records).2 = (normalize_loop records).2.
Proof. unfold normalize_tlsa_records. by destruct (normalize_loop records). Qed.

Lemma elem_of_sort_tlsa (l : list NormTLSA) (rec : NormTLSA) :
  rec ∈ sort_tlsa l ↔ rec ∈ l.
Proof. unfold sort_tlsa. by rewrite merge_sort_Permutation. Qed.

(** C4, as the code has it: a canonical record is produced exactly from
    the records with a non-empty name whose content has at least four
    whitespace-separated pieces; the first four are kept, joined by single
    spaces, and the others dropped.  A warning is written exactly for the
    records with a non-empty name and one to three pieces; records with
    an empty name or an empty content are skipped silently. *)
Theorem normalize_tlsa_records_accepts (records : list stalwart_object) :
  (∀ rec, rec ∈ (normalize_tlsa_records records).1 ↔
     ∃ r, r ∈ records ∧ nonempty (name_of r) = true
          ∧ 4 ≤ length (tokens_of r)
          ∧ rec = {| name := name_of r;
                     content := join " " (take 4 (tokens_of r)) |})
  ∧ (∀ m, m ∈ (normalize_tlsa_records records).2 ↔
     ∃ r, r ∈ records ∧ nonempty (name_of r) = true
          ∧ 1 ≤ length (tokens_of r) < 4
          ∧ m = WarnInvalidTLSA (name_of r) (strip (get_str (st_content r)))).
Proof.
  split.
  - intros rec. rewrite normalize_records_fst, elem_of_sort_tlsa, normalize_loop_out.
    apply exist_proper. intros r. apply and_iff_compat_l.
    rewrite normalize_step_eq.
    destruct (nonempty (name_of r)); cbn [negb orb].
    2:{ split; [done|]. by intros (? & _). }
    destruct (Nat.eqb_spec (length (tokens_of r)) 0),
             (Nat.ltb_spec (length (tokens_of r)) 4); simpl;
      try (split; [done|]; intros (_ & ? & _); lia).
    split; [intros [= <-]; done|]. by intros (_ & _ & ->).
  - intros m. rewrite normalize_records_snd, normalize_loop_warn.
    apply exist_proper. intros r. apply and_iff_compat_l.
    rewrite normalize_step_eq.
    destruct (nonempty (name_of r)); cbn [negb orb].
    2:{ split; [by intros ?%elem_of_nil|]. by intros (? & _). }
    destruct (Nat.eqb_spec (length (tokens_of r)) 0),
             (Nat.ltb_spec (length (tokens_of r)) 4); simpl;
      try (split; [by intros ?%elem_of_nil|]; intros (_ & ? & _); lia).
    rewrite list_elem_of_singleton. split; [intros ->|by intros (_ & _ & ->)].
    repeat split; [lia|done].
Qed.

(** C4, as stated, fails: a content with five pieces is not skipped; a
    canonical record is built from its first four pieces, without a
    warning. *)
Lemma five_pieces_accepted :
  let r := {| st_type := Some (JStr "TLSA");
              st_name := Some (JStr "_25._tcp.mail.example.com");
              st_content := Some (JStr "3 1 1 abcd extra") |} in
  length (tokens_of r) = 5%nat
  ∧ normalize_tlsa_records [r]
    = ([ {| name := "_25._tcp.mail.example.com"; content := "3 1 1 abcd" |} ], []).
Proof. split; vm_compute; reflexivity. Qed.

(** ** The Cloudflare side of the Normalizer *)

Lemma split_ws_token (t : string) : is_token t = true → split_ws t = [t].
Proof.
  intros [Hne Ht]%andb_prop. induction t as [|c t IH]; [done|].
  cbn [all_chars] in Ht. apply andb_prop in Ht as [Hc Ht].
  apply negb_true_iff in Hc. rewrite split_ws_cons_nonspace by done.
  destruct t as [|c' t']; [done|]. cbn [first_char].
  cbn [all_chars] in Ht. apply andb_prop in Ht as Ht'. destruct Ht' as [Hc' _].
  apply negb_true_iff in Hc'. rewrite Hc', IH; done.
Qed.

Lemma split_ws_token_space (t rest : string) (c : ascii) :
  is_token t = true → is_space c = true →
  split_ws (t +:+ String c rest) = t :: split_ws rest.
Proof.
  intros [Hne Ht]%andb_prop Hsp. induction t as [|a t IH]; [done|].
  cbn [all_chars] in Ht. apply andb_prop in Ht as [Ha Ht].
  apply negb_true_iff in Ha. rewrite app_cons, split_ws_cons_nonspace by done.
  destruct t as [|a' t'].
  - rewrite app_nil_l. cbn [first_char]. rewrite Hsp.
    by rewrite split_ws_cons_space.
  - rewrite app_cons. cbn [first_char].
    cbn [all_chars] in Ht. apply andb_prop in Ht as Ht'. destruct Ht' as [Ha' _].
    apply negb_true_iff in Ha'. rewrite Ha', <- app_cons, IH; done.
Qed.



Lemma rstrip_by_id_last (p : ascii -> bool) (s : string) (c : ascii) :
  last_char s = Some c → p c = false → rstrip_by p s = s.
Proof.
  intros Hl Hc. induction s as [|a s IH]; [done|].
  cbn [rstrip_by]. destruct s as [|a' s'].
  - injection Hl as ->. simpl. by rewrite Hc.
  - rewrite IH by done. done.
Qed.

Lemma last_char_app (s t : string) :
  nonempty t = true → last_char (s +:+ t) = last_char t.
Proof.
  intros Ht. induction s as [|a s IH]; [done|]. rewrite app_cons.
  cbn [last_char]. rewrite IH. destruct (s +:+ t) eqn:Hst; [|done].
  destruct s, t; done.
Qed.







(** ** Ordering *)

Lemma key_le_iff (x y : string * string) :
  key_le x y ↔
  (x.1 = y.1 ∧ String.le x.2 y.2) ∨ (x.1 ≠ y.1 ∧ String.le x.1 y.1).
Proof.
  unfold key_le, key_leb, String.le.
  destruct (String.eqb_spec x.1 y.1) as [Heq|Hne];
    rewrite !Is_true_true; split; auto; intros [[??]|[??]]; done.
Qed.

Global Instance key_le_total : Total key_le.
Proof.
  intros x y. rewrite !key_le_iff.
  destruct (decide (x.1 = y.1)) as [Heq|Hne].
  - destruct (total String.le x.2 y.2); auto.
  - destruct (total String.le x.1 y.1); auto.
Qed.

Global Instance key_le_trans : Transitive key_le.
Proof.
  intros x y z. rewrite !key_le_iff.
  intros [[Hxy ?]|[Hxy ?]] [[Hyz ?]|[Hyz ?]].
  - left. split; [congruence|by etrans].
  - right. split; [congruence|]. by rewrite Hxy.
  - right. split; [congruence|]. by rewrite <- Hyz.
  - right. split; [|by etrans].
    intros Hxz. apply Hxy. apply (anti_symm String.le); [done|]. by rewrite Hxz.
Qed.

Global Instance key_le_antisymm : AntiSymm (=) key_le.
Proof.
  intros [x1 x2] [y1 y2]. rewrite !key_le_iff. simpl.
  intros [[-> ?]|[Hne ?]] [[? ?]|[? ?]]; try done.
  - f_equal. by apply (anti_symm String.le).
  - exfalso. by apply Hne, (anti_symm String.le).
Qed.

Global Instance tlsa_le_total : Total tlsa_le.
Proof. intros x y. apply (total key_le). Qed.

Global Instance tlsa_le_trans : Transitive tlsa_le.
Proof. intros x y z. apply (transitivity (R:=key_le)). Qed.

Global Instance tlsa_le_antisymm : AntiSymm (=) tlsa_le.
Proof.
  intros [n1 c1] [n2 c2] H1 H2.
  pose proof (anti_symm key_le _ _ H1 H2) as Heq. by injection Heq as -> ->.
Qed.

(** A list has one sorted arrangement: whatever algorithm Python's
    [sort] runs, its result is [sort_tlsa]. *)
Lemma sort_tlsa_unique (l l' : list NormTLSA) :
  Sorted tlsa_le l' → l' ≡ₚ l → l' = sort_tlsa l.
Proof.
  intros Hs Hp. apply (Sorted_unique tlsa_le); [done| |].
  - apply Sorted_merge_sort, _.
  - unfold sort_tlsa. by rewrite merge_sort_Permutation.
Qed.



(** ** The Differ *)

(** C2: the Differ computes [to_add = A - B] and [to_delete = B - A], and
    removing [to_delete] from [B] and then adding [to_add] gives [A]. *)
Theorem diff_then_apply (A B : gset (string * string)) :
  to_add A B = A ∖ B
  ∧ to_delete A B = B ∖ A
  ∧ apply_plan B (to_delete A B) (to_add A B) = A.
Proof.
  split; [done|]. split; [done|].
  unfold apply_plan, to_delete, to_add. apply set_eq. intros x.
  rewrite elem_of_union, !elem_of_difference.
  destruct (decide (x ∈ A)), (decide (x ∈ B)); tauto.
Qed.

(** ** Splitting a canonical content *)

Lemma split_sep_zero (sep : ascii) (s : string) : split_sep sep 0 s = [s].
Proof. by destruct s. Qed.

Lemma split_sep_field (sep : ascii) (n : nat) (f rest : string) :
  all_chars (fun c => negb (Ascii.eqb c sep)) f = true →
  split_sep sep (S n) (f +:+ String sep rest) = f :: split_sep sep n rest.
Proof.
  induction f as [|c f IH]; intros Hf.
  - rewrite app_nil_l. cbn [split_sep]. by rewrite Ascii.eqb_refl.
  - cbn [all_chars] in Hf. apply andb_prop in Hf as [Hc Hf].
    apply negb_true_iff in Hc. rewrite app_cons. cbn [split_sep].
    rewrite Hc, IH by done. done.
Qed.

Lemma split_sep_canonical (f1 f2 f3 f4 : string) :
  is_field f1 = true → is_field f2 = true → is_field f3 = true →
  split_sep " " 3 (join " " [f1; f2; f3; f4]) = [f1; f2; f3; f4].
Proof.
  intros [_ H1]%andb_prop [_ H2]%andb_prop [_ H3]%andb_prop.
  change (join " " [f1; f2; f3; f4])
    with (f1 +:+ String " " (f2 +:+ String " " (f3 +:+ String " " f4))).
  rewrite !split_sep_field by done. by rewrite split_sep_zero.
Qed.

(** C10: for a record whose content is four non-empty fields without
    spaces, joined by single spaces, the add step splits the content back
    into these four fields and does not raise the "Invalid TLSA content"
    error, whatever the world answers. *)
Theorem add_tlsa_splits_canonical_content {W : Type} `{World W}
    (zone_id cf_key : string) (rec : NormTLSA) (ttl : Z)
    (f1 f2 f3 f4 : string) (w : W) :
  is_field f1 = true → is_field f2 = true →
  is_field f3 = true → is_field f4 = true →
  content rec = join " " [f1; f2; f3; f4] →
  split_sep " " 3 (content rec) = [f1; f2; f3; f4]
  ∧ ∀ n c, (cloudflare_add_tlsa zone_id cf_key rec ttl w).1.1
           ≠ Raise (ValueError (InvalidTLSAContent n c)).
Proof.
  intros H1 H2 H3 H4 Hc.
  assert (split_sep " " 3 (content rec) = [f1; f2; f3; f4]) as Hsplit.
  { rewrite Hc. by apply split_sep_canonical. }
  split; [done|]. intros n c.
  unfold cloudflare_add_tlsa. rewrite Hsplit. cbn [length Nat.eqb negb].
  unfold bind, int_of_str, http_json, ret, raise.
  repeat (case_match; simplify_eq/=); done.
Qed.

Lemma add_tlsa_splits_canonical_content_witness :
  let rec := {| name := "_25._tcp.mail.example.com"; content := "3 1 1 abcd" |} in
  split_sep " " 3 (content rec) = ["3"; "1"; "1"; "abcd"]
  ∧ ∀ n c, (cloudflare_add_tlsa "zone-a" "cf-token" rec 120 two_zones).1.1
           ≠ Raise (ValueError (InvalidTLSAContent n c)).
Proof.
  apply (add_tlsa_splits_canonical_content "zone-a" "cf-token"
           {| name := "_25._tcp.mail.example.com"; content := "3 1 1 abcd" |}
           120 "3" "1" "1" "abcd" two_zones); reflexivity.
Defined.

Lemma all_chars_impl (p q : ascii -> bool) (s : string) :
  (∀ c, p c = true → q c = true) → all_chars p s = true → all_chars q s = true.
Proof.
  intros Hpq. induction s as [|c s IH]; [done|]. cbn [all_chars].
  intros [Hc Hs]%andb_prop. by rewrite (Hpq c Hc), IH.
Qed.

Lemma token_is_field (t : string) : is_token t = true → is_field t = true.
Proof.
  unfold is_token, is_field. intros [-> Ht]%andb_prop. simpl.
  revert Ht. apply all_chars_impl. intros c Hc.
  apply negb_true_iff in Hc. apply negb_true_iff.
  unfold is_space_char. destruct (Ascii.eqb_spec c " ") as [->|]; done.
Qed.

(** Every record the Normalizer outputs has a content of the form the add
    step expects. *)
Lemma normalized_content_canonical (records : list stalwart_object) (rec : NormTLSA) :
  rec ∈ (normalize_tlsa_records records).1 →
  ∃ f1 f2 f3 f4,
    is_field f1 = true ∧ is_field f2 = true ∧ is_field f3 = true
    ∧ is_field f4 = true ∧ content rec = join " " [f1; f2; f3; f4].
Proof.
  rewrite normalize_records_fst, elem_of_sort_tlsa, normalize_loop_out.
  intros (r & _ & Hr). rewrite normalize_step_eq in Hr.
  destruct (negb _ || _); [done|].
  destruct (Nat.ltb_spec (length (tokens_of r)) 4) as [|Hlen]; [done|].
  injection Hr as <-. cbn [content].
  assert (∀ t, t ∈ tokens_of r → is_field t = true) as Htok.
  { intros t Ht. by apply token_is_field, (split_ws_is_token _ _ Ht). }
  destruct (tokens_of r) as [|f1 [|f2 [|f3 [|f4 rest]]]]; simpl in Hlen; try lia.
  exists f1, f2, f3, f4. cbn [take].
  repeat split; try (apply Htok; rewrite !elem_of_cons; auto 10).
Qed.

(** ** Zone resolution *)



(** ** Traces of computations *)

Section Traces.
Context {W : Type} `{World W}.

Lemma bind_run {A B} (m : M W A) (k : A → M W B) (w w1 : W) (a : A) t1 :
  m w = (Ret a, w1, t1) →
  bind m k w = ((k a w1).1.1, (k a w1).1.2, t1 ++ (k a w1).2).
Proof. unfold bind. intros ->. by destruct (k a w1) as [[??]?]. Qed.

Lemma bind_emit {B} (e : event) (k : unit → M W B) (w : W) :
  bind (emit e) k w = ((k tt w).1.1, (k tt w).1.2, e :: (k tt w).2).
Proof. by rewrite (bind_run _ _ w w tt [e]). Qed.

Lemma bind_stop {A B} (m : M W A) (k : A → M W B) (w : W) :
  (∀ a, (m w).1.1 ≠ Ret a) → (bind m k w).2 = (m w).2.
Proof.
  unfold bind. destruct (m w) as [[[a| | |] w1] t1]; try done.
  intros Hne. by destruct (Hne a).
Qed.

Variable p : event → bool.

Lemma silent_ret {A} (a : A) : silent p (ret (W:=W) a).
Proof. by intros w. Qed.

Lemma silent_raise {A} (e : exn) : silent p (raise (W:=W) (A:=A) e).
Proof. by intros w. Qed.

Lemma silent_out_of_fuel {A} : silent p (out_of_fuel (W:=W) (A:=A)).
Proof. by intros w. Qed.

Lemma silent_emit (e : event) : p e = false → silent p (emit (W:=W) e).
Proof. intros He w. simpl. by rewrite He. Qed.

Lemma silent_bind {A B} (m : M W A) (k : A → M W B) :
  silent p m → (∀ a, silent p (k a)) → silent p (bind m k).
Proof.
  intros Hm Hk w. specialize (Hm w). unfold bind.
  destruct (m w) as [[[a| | |] w1] t1]; try done.
  specialize (Hk a w1). destruct (k a w1) as [[o w2] t2]. simpl in *.
  by rewrite List.filter_app, Hm, Hk.
Qed.

Lemma silent_try_except {A} (m : M W A) (handler : exn → M W A) :
  silent p m → (∀ e, silent p (handler e)) → silent p (try_except m handler).
Proof.
  intros Hm Hh w. specialize (Hm w). unfold try_except.
  destruct (m w) as [[[a|e| |] w1] t1]; try done.
  specialize (Hh e w1). destruct (handler e w1) as [[o w2] t2]. simpl in *.
  by rewrite List.filter_app, Hm, Hh.
Qed.

Lemma silent_for_each {A} (l : list A) (body : A → M W unit) :
  (∀ x, silent p (body x)) → silent p (for_each l body).
Proof.
  intros Hbody. induction l as [|x l IH]; [apply silent_ret|].
  apply silent_bind; auto.
Qed.

Lemma silent_emit_all (es : list event) :
  (∀ e, e ∈ es → p e = false) → silent p (emit_all (W:=W) es).
Proof.
  induction es as [|e es IH]; intros Hes; [apply silent_ret|].
  apply silent_bind.
  - apply silent_emit, Hes. left.
  - intros _. apply IH. intros ??. apply Hes. by right.
Qed.

Lemma silent_http_json (req : http_request) :
  p (EvHttp req) = false → silent p (http_json req).
Proof.
  intros Hreq w. unfold http_json. destruct (http w req). simpl. by rewrite Hreq.
Qed.

Lemma silent_int_of_str (s : string) : silent p (int_of_str (W:=W) s).
Proof. unfold int_of_str. destruct (py_int s); by intros w. Qed.

Lemma silent_total_pages_of (resp : response) :
  silent p (total_pages_of (W:=W) resp).
Proof.
  unfold total_pages_of. destruct (resp_total_pages resp) as [v|]; [|done].
  destruct (truthy v); [|done]. by destruct (py_int_scalar v).
Qed.

Lemma silent_stalwart_fetch_tlsa (domain endpoint_url stalwart_key : string) :
  (∀ b d k, p (EvHttp (GetStalwartRecords b d k)) = false) →
  (∀ m, p (EvStderr m) = false) →
  silent p (stalwart_fetch_tlsa domain endpoint_url stalwart_key).
Proof.
  intros Hget Herr. unfold stalwart_fetch_tlsa.
  apply silent_bind; [by apply silent_http_json|]. intros resp.
  destruct (resp_data resp) as [data|]; [|apply silent_ret].
  destruct (normalize_tlsa_records _) as [out warnings].
  apply silent_bind; [|intros; apply silent_ret].
  apply silent_emit_all. intros e (m & -> & _)%list_elem_of_fmap. apply Herr.
Qed.

Lemma silent_cloudflare_get_zone_id (domain cf_key : string) :
  (∀ d k, p (EvHttp (GetZones d k)) = false) →
  silent p (cloudflare_get_zone_id domain cf_key).
Proof.
  intros Hget. unfold cloudflare_get_zone_id.
  apply silent_bind; [by apply silent_http_json|]. intros resp.
  destruct (negb _); [apply silent_raise|].
  destruct (resp_result resp) as [[|zone rest]|]; try apply silent_raise.
  destruct (negb _); [apply silent_raise|apply silent_ret].
Qed.

Lemma silent_list_pages (fuel : nat) (zone_id cf_key : string)
    (record_type : option string) (per_page page : Z) (records : list cf_object) :
  (∀ z k rt pp pg, p (EvHttp (GetDnsRecords z k rt pp pg)) = false) →
  silent p (list_pages fuel zone_id cf_key record_type per_page page records).
Proof.
  intros Hget. revert page records.
  induction fuel as [|fuel IH]; intros page records; [apply silent_out_of_fuel|].
  cbn [list_pages]. apply silent_bind; [by apply silent_http_json|]. intros resp.
  destruct (negb _); [apply silent_raise|].
  apply silent_bind; [apply silent_total_pages_of|]. intros total_pages.
  destruct (total_pages <=? page)%Z; [apply silent_ret|apply IH].
Qed.

Lemma silent_cloudflare_existing_tlsa (fuel : nat) (zone_id cf_key : string)
    (per_page : Z) :
  (∀ z k rt pp pg, p (EvHttp (GetDnsRecords z k rt pp pg)) = false) →
  silent p (cloudflare_existing_tlsa fuel zone_id cf_key per_page).
Proof.
  intros Hget. unfold cloudflare_existing_tlsa, cloudflare_list_dns_records.
  apply silent_bind; [by apply silent_list_pages|]. intros; apply silent_ret.
Qed.
End Traces.

(** ** The Orchestrator *)



Section Runs.
Context {W : Type} `{World W}.

Lemma silent_at {A} (p : event → bool) (m : M W A) (w : W) :
  silent p m → List.filter p (m w).2 = [].
Proof. intros Hm. apply Hm. Qed.

Lemma bind_same_filter {A B} (p : event → bool) (m : M W A)
    (k1 k2 : A → M W B) (w : W) :
  (∀ a w1, List.filter p (k1 a w1).2 = List.filter p (k2 a w1).2) →
  List.filter p (bind m k1 w).2 = List.filter p (bind m k2 w).2.
Proof.
  intros Hk. unfold bind. destruct (m w) as [[[a| | |] w1] t1]; try done.
  specialize (Hk a w1).
  destruct (k1 a w1) as [[o1 w2] t2], (k2 a w1) as [[o1' w2'] t2'].
  simpl in *. by rewrite !List.filter_app, Hk.
Qed.

Ltac silent_step :=
  lazymatch goal with
  | |- silent _ (bind _ _) => apply silent_bind; [|intros ?]
  | |- silent _ (ret _) => apply silent_ret
  | |- silent _ (raise _) => apply silent_raise
  | |- silent _ (print _) => apply silent_emit; reflexivity
  | |- silent _ (eprint _) => apply silent_emit; reflexivity
  | |- silent _ sleep => apply silent_emit; reflexivity
  | |- silent _ (http_json _) => apply silent_http_json; reflexivity
  | |- silent _ (int_of_str _) => apply silent_int_of_str
  | |- silent _ (for_each _ _) => apply silent_for_each; intros ?
  | |- silent _ (stalwart_fetch_tlsa _ _ _) =>
      apply silent_stalwart_fetch_tlsa; reflexivity
  | |- silent _ (cloudflare_get_zone_id _ _) =>
      apply silent_cloudflare_get_zone_id; reflexivity
  | |- silent _ (cloudflare_existing_tlsa _ _ _ _) =>
      apply silent_cloudflare_existing_tlsa; reflexivity
  | |- silent _ (if ?b then _ else _) => destruct b
  | |- silent _ (match ?x with _ => _ end) => destruct x
  end.

(** The delete and add phases make no read-side call. *)
Lemma silent_delete_stale zone_id cf_key ids_by_key to_delete :
  silent is_read (delete_stale zone_id cf_key ids_by_key to_delete).
Proof.
  unfold delete_stale, cloudflare_delete_record. repeat silent_step.
Qed.

Lemma silent_add_missing zone_id cf_key ttl to_add :
  silent is_read (add_missing zone_id cf_key ttl to_add).
Proof.
  unfold add_missing, cloudflare_add_tlsa. cbv zeta. repeat silent_step.
Qed.

(** A dry run makes no mutation call. *)
Lemma silent_main_try_dry fuel env args :
  silent is_mutation (main_try fuel env (with_dry_run true args)).
Proof.
  unfold main_try, with_dry_run. cbn - [strip]. repeat silent_step.
Qed.

Ltac same_step :=
  lazymatch goal with
  | |- List.filter _ (bind ?m _ _).2 = List.filter _ (bind ?m _ _).2 =>
      apply bind_same_filter; intros ? ?
  | |- List.filter _ ((if ?b then _ else _) _).2 = _ => destruct b
  | |- List.filter _ ((match ?x with _ => _ end) _).2 = _ => destruct x
  end.

(** A dry run and a live run make the same read-side calls. *)
Lemma main_try_same_reads fuel env args (w : W) :
  reads (main_try fuel env (with_dry_run true args) w).2
  = reads (main_try fuel env (with_dry_run false args) w).2.
Proof.
  unfold reads, main_try, with_dry_run. cbn - [strip].
  repeat (same_step; try reflexivity).
  etrans; [|symmetry]; apply silent_at.
  - repeat silent_step.
  - repeat silent_step;
      apply silent_delete_stale || apply silent_add_missing.
Qed.
End Runs.

(** ** The pre-sync step *)

Section Reload.
Context {W : Type} `{World W}.

Lemma post_discord_run (webhook username text : string) (w : W) :
  ∃ o, _post_discord webhook username text w
       = (o, (http w (PostDiscord webhook username text)).2,
          [EvHttp (PostDiscord webhook username text)])
     ∧ (o = Ret tt ∨ o = Raise (NameError "log")).
Proof.
  unfold _post_discord, try_except, bind, http_json, log, raise, ret.
  destruct (http w _) as [[resp|status detail|reason|snippet] w1];
    eexists; (split; [reflexivity|]); auto.
Qed.

(** Every path through [reload_stalwart_certificates_from_env] reaches
    a call of the unbound name [log]: the function always raises
    [NameError], having made at most the Discord call. *)
Lemma reload_raises_NameError (env : gmap string string) (dry_run : bool) (w : W) :
  ∃ w' t, reload_stalwart_certificates_from_env env dry_run w
          = (Raise (NameError "log"), w', t)
        ∧ reads t = [] ∧ mutations t = [].
Proof.
  unfold reload_stalwart_certificates_from_env.
  set (rest := if negb _ || negb _ then _ else _).
  assert (∀ w1, rest w1 = (Raise (NameError "log"), w1, [])) as Hrest.
  { intros w1. unfold rest. by destruct (negb _ || negb _). }
  destruct (nonempty (strip (default "" (env !! "DISCORD_WEBHOOK")))).
  - destruct (post_discord_run
                (strip (default "" (env !! "DISCORD_WEBHOOK")))
                (env_or env "DISCORD_USERNAME" "Stalwart")
                "Reloading Stalwart certificates..." w) as (o & Hrun & [->| ->]).
    + rewrite (bind_run _ _ _ _ _ _ Hrun), Hrest. eauto.
    + unfold bind. rewrite Hrun. eauto.
  - rewrite (bind_run _ _ w w tt []) by done. rewrite Hrest. eauto.
Qed.

Lemma main_raises_NameError (fuel : nat) (env : gmap string string)
    (flags : Flags) (w : W) :
  ∃ w' t, main fuel env flags w = (Raise (NameError "log"), w', t)
        ∧ reads t = [] ∧ mutations t = [].
Proof.
  unfold main.
  destruct (reload_raises_NameError env (arg_dry_run (parse_args env flags)) w)
    as (w' & t & Hrun & Hr & Hm).
  exists w', t. unfold bind. by rewrite Hrun.
Qed.
End Reload.

(** C7: a dry run makes no mutation call and makes the read-side calls of
    the live run with the same configuration in the same world, in the
    same order.  This holds of the [try] block of [main], where the
    synchronisation happens, and of [main] as a whole. *)
Theorem dry_run_reads_without_mutating {W : Type} `{World W}
    (fuel : nat) (env : gmap string string) (args : Args) (flags : Flags) (w : W) :
  mutations (main_try fuel env (with_dry_run true args) w).2 = []
  ∧ reads (main_try fuel env (with_dry_run true args) w).2
    = reads (main_try fuel env (with_dry_run false args) w).2
  ∧ mutations (main fuel env (flags_with_dry_run true flags) w).2 = []
  ∧ reads (main fuel env (flags_with_dry_run true flags) w).2
    = reads (main fuel env (flags_with_dry_run false flags) w).2.
Proof.
  split; [apply silent_main_try_dry|]. split; [apply main_try_same_reads|].
  destruct (main_raises_NameError fuel env (flags_with_dry_run true flags) w)
    as (w1 & t1 & -> & Hr1 & Hm1).
  destruct (main_raises_NameError fuel env (flags_with_dry_run false flags) w)
    as (w2 & t2 & -> & Hr2 & Hm2).
  simpl. by rewrite Hr1, Hr2.
Qed.

(** C3: the exit status is never 0.  In every environment and every world
    [main] ends with the [NameError] that the call of the unbound name
    [log] raises in the pre-sync step, outside the [try] block: the
    process exits with status 1.  With a complete configuration and the
    two providers already in sync, the [try] block alone would return 0. *)
Theorem main_always_exits_1 :
  (∀ (W : Type) (HW : World W) (fuel : nat) (env : gmap string string)
     (flags : Flags) (w : W),
     (main fuel env flags w).1.1 = Raise (NameError "log")
     ∧ exit_status (main fuel env flags w).1.1 = Some 1%Z)
  ∧ main 8 env_sample no_flags in_sync = (Raise (NameError "log"), in_sync, [])
  ∧ (main_try 8 env_sample (parse_args env_sample no_flags) in_sync).1.1 = Ret 0%Z.
Proof.
  split; [|split; vm_compute; reflexivity].
  intros W HW fuel env flags w.
  destruct (main_raises_NameError fuel env flags w) as (w' & t & -> & _). done.
Qed.

(** * Further properties of the code *)

(** ** Names and contents under repeated normalisation *)

Lemma lower_char_idem (c : ascii) : lower_char (lower_char c) = lower_char c.
Proof. by destruct c as [[] [] [] [] [] [] [] []]. Qed.

Lemma is_space_lower_char (c : ascii) : is_space (lower_char c) = is_space c.
Proof. by destruct c as [[] [] [] [] [] [] [] []]. Qed.

Lemma is_dot_lower_char (c : ascii) : is_dot (lower_char c) = is_dot c.
Proof. by destruct c as [[] [] [] [] [] [] [] []]. Qed.

Lemma lower_idem (s : string) : lower (lower s) = lower s.
Proof.
  unfold lower. induction s as [|c s IH]; [done|].
  cbn [map_chars]. by rewrite lower_char_idem, IH.
Qed.

Lemma lower_rstrip_by (p : ascii → bool) (s : string) :
  (∀ c, p (lower_char c) = p c) →
  lower (rstrip_by p s) = rstrip_by p (lower s).
Proof.
  intros Hp. unfold lower. induction s as [|c s IH]; [done|].
  cbn [map_chars rstrip_by]. rewrite <- IH, Hp.
  destruct (rstrip_by p s); [by destruct (p c)|done].
Qed.

Lemma all_chars_rstrip_by (p q : ascii → bool) (s : string) :
  all_chars q s = true → all_chars q (rstrip_by p s) = true.
Proof.
  induction s as [|c s IH]; [done|]. cbn [all_chars rstrip_by].
  intros [Hc Hs]%andb_prop. specialize (IH Hs).
  destruct (rstrip_by p s) as [|c' r].
  - destruct (p c); [done|]. cbn [all_chars]. by rewrite Hc.
  - cbn [all_chars] in *. by rewrite Hc, IH.
Qed.

Lemma last_char_nonempty (s : string) :
  nonempty s = true → ∃ c, last_char s = Some c.
Proof.
  induction s as [|a s IH]; [done|]. intros _.
  destruct s as [|a' s']; [by exists a|]. by apply IH.
Qed.

Lemma rstrip_by_idem (p : ascii → bool) (s : string) :
  rstrip_by p (rstrip_by p s) = rstrip_by p s.
Proof.
  destruct (rstrip_by p s) as [|c r] eqn:Hr; [done|]. rewrite <- Hr.
  destruct (last_char_nonempty (rstrip_by p s)) as [c' Hc']; [by rewrite Hr|].
  apply (rstrip_by_id_last _ _ c'); [done|]. by apply (rstrip_by_last p s).
Qed.

Lemma strip_no_whitespace (s : string) : no_whitespace s = true → strip s = s.
Proof. intros Hs. unfold strip. by rewrite lstrip_by_id, rstrip_by_id. Qed.

Lemma lower_lstrip_by (p : ascii → bool) (s : string) :
  (∀ c, p (lower_char c) = p c) →
  lower (lstrip_by p s) = lstrip_by p (lower s).
Proof.
  intros Hp. unfold lower. induction s as [|c s IH]; [done|].
  cbn [map_chars lstrip_by]. rewrite Hp. by destruct (p c).
Qed.

Lemma lower_strip (s : string) : lower (strip s) = strip (lower s).
Proof.
  unfold strip.
  by rewrite lower_rstrip_by, lower_lstrip_by by apply is_space_lower_char.
Qed.

Lemma lower_normalize_name (raw : string) :
  lower (normalize_name raw) = normalize_name raw.
Proof.
  unfold normalize_name, rstrip_dots.
  rewrite lower_rstrip_by by apply is_dot_lower_char. by rewrite lower_idem.
Qed.

(** Name normalisation ignores letter case: the result is in lower case
    (lowercasing it again changes nothing) and a name and its lowercased
    form normalise to the same string. *)
Theorem normalize_name_case_insensitive (raw : string) :
  lower (normalize_name raw) = normalize_name raw
  ∧ normalize_name (lower raw) = normalize_name raw.
Proof.
  split; [apply lower_normalize_name|].
  unfold normalize_name. by rewrite <- lower_strip, lower_idem.
Qed.

Lemma normalize_name_fixed (raw : string) :
  no_whitespace (normalize_name raw) = true →
  normalize_name (normalize_name raw) = normalize_name raw.
Proof.
  intros Hws. unfold normalize_name at 1.
  rewrite (strip_no_whitespace _ Hws), lower_normalize_name.
  unfold normalize_name, rstrip_dots. apply rstrip_by_idem.
Qed.

(** A normalised name without whitespace is a fixed point of
    [normalize_name].  The condition is needed: whitespace before a
    trailing dot, as in ["a ."], survives one pass and is trimmed by the
    next. *)
Theorem normalize_name_idempotent (raw : string) :
  no_whitespace (normalize_name raw) = true →
  normalize_name (normalize_name raw) = normalize_name raw
  ∧ normalize_name "a ." = "a "
  ∧ normalize_name (normalize_name "a .") = "a".
Proof.
  intros Hws. split; [by apply normalize_name_fixed|]. by split.
Qed.

Lemma normalize_name_idempotent_witness :
  normalize_name (normalize_name " Mail.Example.COM.. ")
  = normalize_name " Mail.Example.COM.. "
  ∧ normalize_name "a ." = "a "
  ∧ normalize_name (normalize_name "a .") = "a".
Proof.
  apply (normalize_name_idempotent " Mail.Example.COM.. "). reflexivity.
Defined.

Lemma join_cons2 (t t' : string) (l : list string) :
  join " " (t :: t' :: l) = t +:+ String " " (join " " (t' :: l)).
Proof. reflexivity. Qed.

(** Splitting what [join] made of a list of tokens gives the list back. *)
Lemma split_ws_join (l : list string) :
  (∀ t, t ∈ l → is_token t = true) → split_ws (join " " l) = l.
Proof.
  induction l as [|t l IH]; intros Hl; [done|].
  assert (is_token t = true) as Ht by (apply Hl; left).
  destruct l as [|t' l]; [by apply split_ws_token|].
  rewrite join_cons2, split_ws_token_space by done.
  f_equal. apply IH. intros ??. apply Hl. by right.
Qed.

Lemma sort_tlsa_singleton (rec : NormTLSA) : sort_tlsa [rec] = [rec].
Proof. reflexivity. Qed.

Lemma name_of_raw_of (rec : NormTLSA) :
  name_of (raw_of rec) = normalize_name (name rec).
Proof. reflexivity. Qed.

Lemma tokens_of_raw_of (rec : NormTLSA) :
  tokens_of (raw_of rec) = split_ws (content rec).
Proof. reflexivity. Qed.

(** Normalising an already normalised record returns it unchanged, with
    no warning, provided its name holds no whitespace. *)
Theorem normalize_tlsa_records_idempotent
    (records : list stalwart_object) (rec : NormTLSA) :
  rec ∈ (normalize_tlsa_records records).1 →
  no_whitespace (name rec) = true →
  normalize_tlsa_records [raw_of rec] = ([rec], []).
Proof.
  rewrite normalize_records_fst, elem_of_sort_tlsa, normalize_loop_out.
  intros (r & _ & Hr) Hws. rewrite normalize_step_eq in Hr.
  destruct (nonempty (name_of r)) eqn:Hname; [|done]. cbn [negb orb] in Hr.
  destruct (length (tokens_of r) =? 0)%nat; [done|].
  destruct (Nat.ltb_spec (length (tokens_of r)) 4) as [|Hlen]; [done|].
  assert (∀ t, t ∈ take 4 (tokens_of r) → is_token t = true) as Htok.
  { intros t Ht. apply (subseteq_take 4 (tokens_of r)) in Ht.
    by apply (split_ws_is_token _ _ Ht). }
  assert (normalize_step (raw_of rec) = (Some rec, [])) as Hstep.
  { rewrite normalize_step_eq, name_of_raw_of, tokens_of_raw_of.
    injection Hr as <-. cbn [name content] in *. unfold name_of in *.
    rewrite (normalize_name_fixed _ Hws), Hname.
    rewrite (split_ws_join _ Htok), length_take, Nat.min_l by done.
    cbn [negb orb Nat.eqb Nat.ltb Nat.leb].
    by rewrite take_take, Nat.min_id. }
  unfold normalize_tlsa_records. cbn [normalize_loop]. by rewrite Hstep.
Qed.

Lemma normalize_tlsa_records_idempotent_witness :
  let rec := {| name := "_25._tcp.mail.example.com"; content := "3 1 1 abcd" |} in
  normalize_tlsa_records [raw_of rec] = ([rec], []).
Proof.
  apply (normalize_tlsa_records_idempotent [st_sample]
           {| name := "_25._tcp.mail.example.com"; content := "3 1 1 abcd" |}).
  - vm_compute. left.
  - reflexivity.
Defined.

(** ** The side mapping from keys to record ids *)

Lemma ids_for_cons (p : NormTLSA * string) (acc : list (NormTLSA * string))
    (k : string * string) :
  ids_for (p :: acc) k
  = if decide (key_of p.1 = k) then p.2 :: ids_for acc k else ids_for acc k.
Proof. unfold ids_for. rewrite filter_cons. by destruct (decide _). Qed.

Lemma foldl_ids_append (acc : list (NormTLSA * string))
    (m : gmap (string * string) (list string)) (k : string * string) :
  foldl ids_append m acc !! k
  = match ids_for acc k with
    | [] => m !! k
    | l => Some (default [] (m !! k) ++ l)
    end.
Proof.
  revert m. induction acc as [|p acc IH]; intros m; [done|].
  cbn [foldl]. rewrite IH, ids_for_cons. unfold ids_append.
  destruct (decide (key_of p.1 = k)) as [<-|Hne].
  - rewrite lookup_insert_eq. cbn [default].
    destruct (ids_for acc (key_of p.1)); [done|].
    unfold id. by rewrite <- List.app_assoc.
  - by rewrite lookup_insert_ne.
Qed.

Lemma existing_step_rid (r : cf_object) (rec : NormTLSA) (rid : string) :
  existing_step r = Some (rec, rid) → nonempty rid = true.
Proof.
  unfold existing_step. destruct (nonempty (get_str (cf_id r))) eqn:Hid.
  - destruct (negb _); [done|]. by intros [= _ <-].
  - rewrite !andb_false_r. done.
Qed.

Lemma elem_of_ids_for (acc : list (NormTLSA * string)) (k : string * string)
    (rid : string) :
  rid ∈ ids_for acc k ↔ ∃ rec, (rec, rid) ∈ acc ∧ key_of rec = k.
Proof.
  unfold ids_for. rewrite list_elem_of_fmap. split.
  - intros ([rec rid'] & -> & [Hk Hin]%list_elem_of_filter). by exists rec.
  - intros (rec & Hin & Hk). exists (rec, rid). split; [done|].
    by apply list_elem_of_filter.
Qed.

Lemma elem_of_tlsa_set (l : list NormTLSA) (k : string * string) :
  k ∈ tlsa_set l ↔ ∃ rec, rec ∈ l ∧ key_of rec = k.
Proof.
  unfold tlsa_set. rewrite elem_of_list_to_set, list_elem_of_fmap.
  split; intros (rec & ? & ?); by exists rec.
Qed.

(** What [cloudflare_existing_tlsa] records in [ids_by_key]: under each
    key, the ids of all accepted records with that key, in listing order,
    and nothing under other keys.  Hence a key is in the existing set
    exactly when it has an entry; every entry is a non-empty list of
    non-empty ids; and every key that [main] plans to delete has at least
    one id, so the "No record id found" warning cannot occur. *)
Theorem ids_by_key_complete (raw : list cf_object) (k : string * string) :
  (existing_of_raw raw).2 !! k
  = match ids_for (omap existing_step raw) k with
    | [] => None
    | l => Some l
    end
  ∧ (k ∈ tlsa_set (existing_of_raw raw).1 ↔ is_Some ((existing_of_raw raw).2 !! k))
  ∧ (∀ l, (existing_of_raw raw).2 !! k = Some l →
       l ≠ [] ∧ ∀ rid, rid ∈ l → nonempty rid = true)
  ∧ (∀ desired_set,
       k ∈ to_delete desired_set (tlsa_set (existing_of_raw raw).1) →
       default [] ((existing_of_raw raw).2 !! k) ≠ []).
Proof.
  unfold existing_of_raw. cbn [fst snd].
  set (acc := omap existing_step raw).
  assert (foldl ids_append ∅ acc !! k
          = match ids_for acc k with [] => None | l => Some l end) as Hlook.
  { rewrite foldl_ids_append, lookup_empty. by destruct (ids_for acc k). }
  assert (k ∈ tlsa_set (sort_tlsa (acc.*1)) ↔ ids_for acc k ≠ []) as Hin.
  { rewrite elem_of_tlsa_set. split.
    - intros (rec & Hrec & Hk) Hnil.
      apply elem_of_sort_tlsa, list_elem_of_fmap in Hrec as ([rec' rid] & -> & Hacc).
      assert (rid ∈ ids_for acc k) as Hrid by (apply elem_of_ids_for; eauto).
      rewrite Hnil in Hrid. by apply elem_of_nil in Hrid.
    - destruct (ids_for acc k) as [|rid l] eqn:Hids; [done|]. intros _.
      assert (rid ∈ ids_for acc k) as Hrid by (rewrite Hids; left).
      apply elem_of_ids_for in Hrid as (rec & Hacc & Hk).
      exists rec. split; [|done].
      apply elem_of_sort_tlsa, list_elem_of_fmap. by exists (rec, rid). }
  split; [done|]. split; [|split].
  - rewrite Hin, Hlook. destruct (ids_for acc k); split; done.
  - intros l. rewrite Hlook.
    destruct (ids_for acc k) as [|rid0 l0] eqn:Hids; [done|]. intros [= <-].
    split; [done|]. intros rid Hrid. rewrite <- Hids in Hrid.
    apply elem_of_ids_for in Hrid as (rec & Hacc & _).
    apply list_elem_of_omap in Hacc as (r & _ & Hr).
    by apply (existing_step_rid r rec rid).
  - intros desired_set Hk. unfold to_delete in Hk.
    apply elem_of_difference in Hk as [Hk _]. apply Hin in Hk.
    rewrite Hlook. by destruct (ids_for acc k).
Qed.

(** ** The Applier *)

Section Applier.
Context {W : Type} `{World W}.

(** A loop whose body follows a plan follows the concatenated plan: the
    events of interest form a prefix of it, and all of it when the loop
    completes. *)
Lemma for_each_plan {A} (p : event → bool) (body : A → M W unit)
    (plan : A → list event) (l : list A) :
  (∀ x w, List.filter p (body x w).2 `prefix_of` plan x
          ∧ ((body x w).1.1 = Ret tt → List.filter p (body x w).2 = plan x)) →
  ∀ w, List.filter p (for_each l body w).2 `prefix_of` flat_map plan l
       ∧ ((for_each l body w).1.1 = Ret tt →
          List.filter p (for_each l body w).2 = flat_map plan l).
Proof.
  intros Hbody. induction l as [|x l IH]; intros w; [done|].
  cbn [for_each flat_map]. unfold bind.
  destruct (Hbody x w) as [Hpre Hret].
  destruct (body x w) as [[[[]|e|m|] w1] t1]; cbn [fst snd] in *;
    try (split; [by apply prefix_app_r|done]).
  destruct (IH w1) as [Hpre' Hret'].
  destruct (for_each l body w1) as [[o w2] t2]. cbn [fst snd] in *.
  rewrite List.filter_app, Hret by done. split.
  - by apply prefix_app.
  - intros Ho. by rewrite Hret'.
Qed.

Lemma flat_map_singleton {A B} (f : A → B) (l : list A) :
  flat_map (fun x => [f x]) l = f <$> l.
Proof. induction l as [|x l IH]; [done|]. cbn. by rewrite IH. Qed.

Lemma delete_one_plan (zone_id cf_key rid : string) (m : message) (w : W) :
  mutations
    (bind (cloudflare_delete_record zone_id rid cf_key)
       (fun _ => bind (print m) (fun _ => sleep)) w).2
  = [EvHttp (DeleteDnsRecord zone_id rid cf_key)].
Proof.
  cbv [bind cloudflare_delete_record http_json print sleep emit ret raise].
  destruct (http w (DeleteDnsRecord zone_id rid cf_key)) as [[resp| | |] w1];
    try done.
  by destruct (truthy_opt (resp_success resp)).
Qed.

Lemma delete_ids_plan (zone_id cf_key : string) (m : message)
    (ids : list string) (w : W) :
  let run := for_each ids (fun rid =>
               bind (cloudflare_delete_record zone_id rid cf_key)
                 (fun _ => bind (print m) (fun _ => sleep))) w in
  mutations run.2
    `prefix_of` (fun rid => EvHttp (DeleteDnsRecord zone_id rid cf_key)) <$> ids
  ∧ (run.1.1 = Ret tt →
     mutations run.2
     = (fun rid => EvHttp (DeleteDnsRecord zone_id rid cf_key)) <$> ids).
Proof.
  cbv zeta. rewrite <- flat_map_singleton.
  apply (for_each_plan is_mutation). intros rid w'.
  fold (mutations
          (bind (cloudflare_delete_record zone_id rid cf_key)
             (fun _ => bind (print m) (fun _ => sleep)) w').2).
  by rewrite delete_one_plan.
Qed.

Lemma delete_stale_plan (zone_id cf_key : string)
    (ids_by_key : gmap (string * string) (list string))
    (stale : gset (string * string)) (w : W) :
  mutations (delete_stale zone_id cf_key ids_by_key stale w).2
    `prefix_of` planned_deletes zone_id cf_key ids_by_key stale
  ∧ ((delete_stale zone_id cf_key ids_by_key stale w).1.1 = Ret tt →
     mutations (delete_stale zone_id cf_key ids_by_key stale w).2
     = planned_deletes zone_id cf_key ids_by_key stale).
Proof.
  revert w. apply (for_each_plan is_mutation). intros k w'.
  destruct (default [] (ids_by_key !! k)) as [|rid ids] eqn:Hids; [done|].
  cbv beta iota zeta. apply delete_ids_plan.
Qed.

(** The delete phase sends its delete calls in the order of the plan:
    whatever the world answers, the mutation calls made are an initial
    part of the planned ones, and all of them when the phase completes;
    so every record id registered under a stale key, duplicates included,
    gets its own delete call.  The phase makes no create call and no
    read. *)
Theorem delete_phase_follows_plan (zone_id cf_key : string)
    (ids_by_key : gmap (string * string) (list string))
    (stale : gset (string * string)) (w : W) :
  let run := delete_stale zone_id cf_key ids_by_key stale w in
  mutations run.2 `prefix_of` planned_deletes zone_id cf_key ids_by_key stale
  ∧ (run.1.1 = Ret tt →
     mutations run.2 = planned_deletes zone_id cf_key ids_by_key stale)
  ∧ List.filter is_create_call run.2 = []
  ∧ reads run.2 = [].
Proof.
  cbv zeta.
  destruct (delete_stale_plan zone_id cf_key ids_by_key stale w) as [Hpre Hret].
  split; [done|]. split; [done|].
  split; apply silent_at; unfold delete_stale, cloudflare_delete_record;
    apply silent_for_each; intros k;
    (destruct (default [] (ids_by_key !! k));
     [by apply silent_emit|]);
    apply silent_for_each; intros rid;
    repeat (apply silent_bind; [|intros ?]);
    try (by apply silent_emit); try (by apply silent_http_json);
    destruct (negb _); by (apply silent_raise || apply silent_ret).
Qed.
Lemma add_tlsa_run (zone_id cf_key : string) (rec : NormTLSA) (ttl : Z) (w : W) :
  cloudflare_add_tlsa zone_id cf_key rec ttl w
  = match payload_of rec ttl with
    | Some p =>
        bind (http_json (PostDnsRecord zone_id cf_key p))
          (fun resp =>
             if negb (truthy_opt (resp_success resp))
             then raise (RuntimeError (AddFailed (name rec) (error_message resp)))
             else ret tt) w
    | None => ((cloudflare_add_tlsa zone_id cf_key rec ttl w).1.1, w, [])
    end
  ∧ (payload_of rec ttl = None →
     ∃ m, (cloudflare_add_tlsa zone_id cf_key rec ttl w).1.1 = Raise (ValueError m)).
Proof.
  unfold cloudflare_add_tlsa, payload_of.
  destruct (split_sep " " 3 (content rec)) as [|u [|s [|m [|c [|x l]]]]];
    try (split; [reflexivity|]; intros _; eexists; reflexivity).
  cbn [length Nat.eqb negb]. cbv [lookup_total list_lookup_total]. cbn [hd drop].
  unfold int_of_str.
  destruct (py_int u) as [u'|]; [|split; [reflexivity|]; intros _; eexists; reflexivity].
  destruct (py_int s) as [s'|]; [|split; [reflexivity|]; intros _; eexists; reflexivity].
  destruct (py_int m) as [m'|]; [|split; [reflexivity|]; intros _; eexists; reflexivity].
  split; [|done].
  rewrite (bind_run _ _ w w u' []) by done.
  rewrite (bind_run _ _ w w s' []) by done.
  rewrite (bind_run _ _ w w m' []) by done.
  cbn [app]. 
  by destruct (bind _ _ w) as [[??]?].
Qed.


Lemma then_print_sleep (m0 : M W unit) (msg : message) (w : W) :
  let run := bind m0 (fun _ => bind (print msg) (fun _ => sleep)) w in
  mutations run.2 = mutations (m0 w).2
  ∧ (run.1.1 = Ret tt → (m0 w).1.1 = Ret tt).
Proof.
  cbv [bind print sleep emit].
  destruct (m0 w) as [[[[]| | |] w1] t1]; cbn [fst snd]; try done.
  unfold mutations. by rewrite List.filter_app, List.app_nil_r.
Qed.

Lemma add_one_plan (zone_id cf_key : string) (rec : NormTLSA) (ttl : Z)
    (m : message) (w : W) :
  let run := bind (cloudflare_add_tlsa zone_id cf_key rec ttl)
               (fun _ => bind (print m) (fun _ => sleep)) w in
  let plan := option_list ((fun p => EvHttp (PostDnsRecord zone_id cf_key p))
                             <$> payload_of rec ttl) in
  mutations run.2 `prefix_of` plan ∧ (run.1.1 = Ret tt → mutations run.2 = plan).
Proof.
  cbv zeta.
  destruct (then_print_sleep (cloudflare_add_tlsa zone_id cf_key rec ttl) m w)
    as [-> Hret].
  assert (mutations (cloudflare_add_tlsa zone_id cf_key rec ttl w).2
          = option_list ((fun p => EvHttp (PostDnsRecord zone_id cf_key p))
                           <$> payload_of rec ttl)
          ∨ (mutations (cloudflare_add_tlsa zone_id cf_key rec ttl w).2 = []
             ∧ ∃ e, (cloudflare_add_tlsa zone_id cf_key rec ttl w).1.1 = Raise e))
    as [->|[-> [e He]]].
  { destruct (add_tlsa_run zone_id cf_key rec ttl w) as [Hrun Hnone].
    destruct (payload_of rec ttl) as [p|].
    - left. rewrite Hrun. cbv [bind http_json raise ret].
      destruct (http w (PostDnsRecord zone_id cf_key p)) as [[resp| | |] w1];
        try done.
      by destruct (truthy_opt (resp_success resp)).
    - right. destruct (Hnone eq_refl) as [e He]. rewrite Hrun at 1.
      split; [done|]. by exists (ValueError e). }
  - done.
  - split; [apply prefix_nil|]. intros Hr. apply Hret in Hr. congruence.
Qed.

Lemma add_missing_plan (zone_id cf_key : string) (ttl : Z)
    (missing : gset (string * string)) (w : W) :
  mutations (add_missing zone_id cf_key ttl missing w).2
    `prefix_of` planned_creates zone_id cf_key ttl missing
  ∧ ((add_missing zone_id cf_key ttl missing w).1.1 = Ret tt →
     mutations (add_missing zone_id cf_key ttl missing w).2
     = planned_creates zone_id cf_key ttl missing).
Proof.
  revert w. apply (for_each_plan is_mutation). intros k w'. apply add_one_plan.
Qed.

(** The add phase sends its create calls in the order of the plan:
    whatever the world answers, the mutation calls made are an initial
    part of the planned ones, and all of them when the phase completes.
    The phase makes no delete call and no read. *)
Theorem add_phase_follows_plan (zone_id cf_key : string) (ttl : Z)
    (missing : gset (string * string)) (w : W) :
  let run := add_missing zone_id cf_key ttl missing w in
  mutations run.2 `prefix_of` planned_creates zone_id cf_key ttl missing
  ∧ (run.1.1 = Ret tt →
     mutations run.2 = planned_creates zone_id cf_key ttl missing)
  ∧ List.filter is_delete_call run.2 = []
  ∧ reads run.2 = [].
Proof.
  cbv zeta.
  destruct (add_missing_plan zone_id cf_key ttl missing w) as [Hpre Hret].
  split; [done|]. split; [done|].
  split; apply silent_at; unfold add_missing, cloudflare_add_tlsa;
    apply silent_for_each; intros k; cbv zeta;
    repeat (apply silent_bind; [|intros ?]);
    try (by apply silent_emit);
    (destruct (negb (length _ =? 4)%nat); [apply silent_raise|]);
    repeat (apply silent_bind; [|intros ?]);
    try apply silent_int_of_str; try (by apply silent_http_json);
    destruct (negb _); by (apply silent_raise || apply silent_ret).
Qed.

End Applier.

(** ** Configuration errors *)


(** ** Outcomes of the synchronisation block *)

Section Outcomes.
Context {W : Type} `{World W}.

Lemma returns_ret {A} (Q : A → Prop) (a : A) : Q a → returns Q (ret (W:=W) a).
Proof. by intros Ha w. Qed.

Lemma returns_raise {A} (Q : A → Prop) (e : exn) :
  returns Q (raise (W:=W) (A:=A) e).
Proof. by intros w. Qed.

Lemma returns_out_of_fuel {A} (Q : A → Prop) :
  returns Q (out_of_fuel (W:=W) (A:=A)).
Proof. by intros w. Qed.

Lemma returns_emit (Q : unit → Prop) (e : event) :
  Q tt → returns Q (emit (W:=W) e).
Proof. by intros Hq w. Qed.

Lemma returns_bind {A B} (Q : B → Prop) (m : M W A) (k : A → M W B) :
  returns (fun _ => True) m → (∀ a, returns Q (k a)) → returns Q (bind m k).
Proof.
  intros Hm Hk w. specialize (Hm w). unfold bind.
  destruct (m w) as [[[a| | |] w1] t1]; try done.
  specialize (Hk a w1). by destruct (k a w1) as [[o w2] t2].
Qed.

Lemma returns_for_each {A} (l : list A) (body : A → M W unit) :
  (∀ x, returns (fun _ => True) (body x)) →
  returns (fun _ => True) (for_each l body).
Proof.
  intros Hbody. induction l as [|x l IH]; [by apply returns_ret|].
  apply returns_bind; auto.
Qed.

Lemma returns_http_json (req : http_request) :
  returns (fun _ => True) (http_json req).
Proof.
  intros w. unfold http_json. by destruct (http w req) as [[| | |] ?].
Qed.

Lemma returns_int_of_str (s : string) :
  returns (fun _ => True) (int_of_str (W:=W) s).
Proof. unfold int_of_str. destruct (py_int s); by intros w. Qed.

Lemma returns_emit_all (es : list event) :
  returns (fun _ => True) (emit_all (W:=W) es).
Proof.
  induction es as [|e es IH]; [by apply returns_ret|].
  apply returns_bind; [by apply returns_emit|done].
Qed.

Lemma returns_total_pages_of (resp : response) :
  returns (fun _ => True) (total_pages_of (W:=W) resp).
Proof.
  unfold total_pages_of. destruct (resp_total_pages resp) as [v|]; [|done].
  destruct (truthy v); [|done]. by destruct (py_int_scalar v).
Qed.

Lemma returns_list_pages (fuel : nat) (zone_id cf_key : string)
    (record_type : option string) (per_page page : Z) (records : list cf_object) :
  returns (fun _ => True)
    (list_pages fuel zone_id cf_key record_type per_page page records).
Proof.
  revert page records.
  induction fuel as [|fuel IH]; intros page records; [apply returns_out_of_fuel|].
  cbn [list_pages]. apply returns_bind; [apply returns_http_json|]. intros resp.
  destruct (negb _); [apply returns_raise|].
  apply returns_bind; [apply returns_total_pages_of|]. intros total_pages.
  destruct (total_pages <=? page)%Z; [by apply returns_ret|apply IH].
Qed.

Ltac returns_step :=
  lazymatch goal with
  | |- returns _ (bind _ _) => apply returns_bind; [|intros ?]
  | |- returns _ (ret _) => apply returns_ret; done
  | |- returns _ (raise _) => apply returns_raise
  | |- returns _ (print _) => apply returns_emit; done
  | |- returns _ (eprint _) => apply returns_emit; done
  | |- returns _ sleep => apply returns_emit; done
  | |- returns _ (emit_all _) => apply returns_emit_all
  | |- returns _ (http_json _) => apply returns_http_json
  | |- returns _ (int_of_str _) => apply returns_int_of_str
  | |- returns _ (list_pages _ _ _ _ _ _ _) => apply returns_list_pages
  | |- returns _ (for_each _ _) => apply returns_for_each; intros ?
  | |- returns _ (if ?b then _ else _) => destruct b
  | |- returns _ (match ?x with _ => _ end) => destruct x
  | |- returns _ (let '(_, _) := ?x in _) => destruct x
  end.

(** The [try] block never ends in [SystemExit], and the only value it
    returns is 0. *)
Lemma returns_main_try (fuel : nat) (env : gmap string string) (args : Args) :
  returns (fun code => code = 0%Z) (main_try fuel env args).
Proof.
  unfold main_try, stalwart_fetch_tlsa, cloudflare_get_zone_id,
    cloudflare_existing_tlsa, cloudflare_list_dns_records, delete_stale,
    add_missing, cloudflare_delete_record, cloudflare_add_tlsa.
  cbv zeta. repeat returns_step.
Qed.

(** Whatever happens inside it, the [try] statement of [main] ends in one
    of two ways (short of a pagination that never ends): it returns 0, or
    it returns 1, and this exactly when an exception was raised in the
    block, in which case the error is the last line written and the
    requests made are those made up to the exception. *)
Theorem main_guarded_returns_0_or_1 (fuel : nat) (env : gmap string string)
    (args : Args) (w : W) :
  let block := main_try fuel env args w in
  let run := main_guarded fuel env args w in
  (run.1.1 = Ret 0%Z ∨ run.1.1 = Ret 1%Z ∨ run.1.1 = OutOfFuel)
  ∧ (run.1.1 = Ret 0%Z ↔ block.1.1 = Ret 0%Z)
  ∧ (∀ e, block.1.1 = Raise e →
       run = (Ret 1%Z, block.1.2, block.2 ++ [EvStderr (ErrorLine e)]))
  ∧ (run.1.1 = Ret 1%Z → ∃ e, block.1.1 = Raise e)
  ∧ mutations run.2 = mutations block.2
  ∧ reads run.2 = reads block.2.
Proof.
  cbv zeta. pose proof (returns_main_try fuel env args w) as Hret.
  unfold main_guarded, try_except.
  destruct (main_try fuel env args w) as [[[code|e|x|] w1] t1];
    cbn [fst snd] in *; try done.
  - subst code. repeat split; auto; done.
  - cbv [bind eprint emit ret]. cbn [fst snd].
    unfold mutations, reads. rewrite !List.filter_app. cbn [List.filter is_mutation is_read].
    rewrite !List.app_nil_r.
    repeat split; auto; try done.
    + by intros ? [= <-].
    + intros _. by exists e.
  - repeat split; auto; try done.
Qed.
End Outcomes.

(** ** Order of the mutation calls *)

Section Order.
Context {W : Type} `{World W}.

Lemma mutation_is_delete_or_create (e : event) :
  is_mutation e = is_delete_call e || is_create_call e.
Proof. by destruct e as [[]| | | |]. Qed.

Lemma mutations_all_deletes (t : list event) :
  List.filter is_create_call t = [] →
  Forall (fun e => is_delete_call e = true) (mutations t).
Proof.
  intros Hnone. apply Forall_forall. intros e He.
  apply list_elem_of_In, List.filter_In in He as [Hin He].
  rewrite mutation_is_delete_or_create in He.
  destruct (is_create_call e) eqn:Hc; [|by rewrite orb_false_r in He].
  assert (List.In e (List.filter is_create_call t)) as Hin'
    by (by apply List.filter_In).
  by rewrite Hnone in Hin'.
Qed.

Lemma mutations_all_creates (t : list event) :
  List.filter is_delete_call t = [] →
  Forall (fun e => is_create_call e = true) (mutations t).
Proof.
  intros Hnone. apply Forall_forall. intros e He.
  apply list_elem_of_In, List.filter_In in He as [Hin He].
  rewrite mutation_is_delete_or_create in He.
  destruct (is_delete_call e) eqn:Hd; [|done].
  assert (List.In e (List.filter is_delete_call t)) as Hin'
    by (by apply List.filter_In).
  by rewrite Hnone in Hin'.
Qed.

Lemma dtc_silent {A} (m : M W A) (w : W) :
  silent is_mutation m → deletes_then_creates (m w).2.
Proof.
  intros Hm. exists [], []. unfold mutations. by rewrite (Hm w).
Qed.

Lemma dtc_bind {A B} (m : M W A) (k : A → M W B) (w : W) :
  silent is_mutation m →
  (∀ a w1, deletes_then_creates (k a w1).2) →
  deletes_then_creates (bind m k w).2.
Proof.
  intros Hm Hk. specialize (Hm w). unfold bind.
  destruct (m w) as [[[a| | |] w1] t1]; cbn [snd] in *;
    try (exists [], []; by unfold mutations; rewrite Hm).
  destruct (Hk a w1) as (ds & cs & Hmut & Hds & Hcs).
  destruct (k a w1) as [[o w2] t2]. cbn [snd] in *.
  exists ds, cs. unfold mutations in *. by rewrite List.filter_app, Hm, Hmut.
Qed.

Lemma dtc_phases {A B} (m : M W A) (k : A → M W B) (w : W) :
  silent is_create_call m →
  (∀ a, silent is_delete_call (k a)) →
  deletes_then_creates (bind m k w).2.
Proof.
  intros Hm Hk. specialize (Hm w). unfold bind.
  destruct (m w) as [[[a| | |] w1] t1]; cbn [snd] in *;
    try (exists (mutations t1), []; rewrite List.app_nil_r;
         split; [done|]; split; [by apply mutations_all_deletes|done]).
  specialize (Hk a w1). destruct (k a w1) as [[o w2] t2]. cbn [snd] in *.
  exists (mutations t1), (mutations t2). unfold mutations at 1.
  rewrite List.filter_app. split; [done|].
  split; [by apply mutations_all_deletes|by apply mutations_all_creates].
Qed.

Lemma main_guarded_same_mutations (fuel : nat) (env : gmap string string)
    (args : Args) (w : W) :
  mutations (main_guarded fuel env args w).2
  = mutations (main_try fuel env args w).2.
Proof.
  unfold main_guarded, try_except.
  destruct (main_try fuel env args w) as [[[code|e|x|] w1] t1]; try done.
  cbv [bind eprint emit ret]. cbn [snd]. unfold mutations.
  rewrite !List.filter_app. cbn [List.filter is_mutation].
  by rewrite !List.app_nil_r.
Qed.

Ltac quiet_step :=
  lazymatch goal with
  | |- silent _ (bind _ _) => apply silent_bind; [|intros ?]
  | |- silent _ (ret _) => apply silent_ret
  | |- silent _ (raise _) => apply silent_raise
  | |- silent _ (print _) => apply silent_emit; reflexivity
  | |- silent _ (eprint _) => apply silent_emit; reflexivity
  | |- silent _ sleep => apply silent_emit; reflexivity
  | |- silent _ (http_json _) => apply silent_http_json; reflexivity
  | |- silent _ (int_of_str _) => apply silent_int_of_str
  | |- silent _ (for_each _ _) => apply silent_for_each; intros ?
  | |- silent _ (stalwart_fetch_tlsa _ _ _) =>
      apply silent_stalwart_fetch_tlsa; reflexivity
  | |- silent _ (cloudflare_get_zone_id _ _) =>
      apply silent_cloudflare_get_zone_id; reflexivity
  | |- silent _ (cloudflare_existing_tlsa _ _ _ _) =>
      apply silent_cloudflare_existing_tlsa; reflexivity
  | |- silent _ (if ?b then _ else _) => destruct b
  | |- silent _ (match ?x with _ => _ end) => destruct x
  end.

Ltac order_step :=
  lazymatch goal with
  | |- deletes_then_creates ((if ?b then _ else _) _).2 => destruct b
  | |- deletes_then_creates ((match ?x with _ => _ end) _).2 => destruct x
  | |- deletes_then_creates (bind _ _ _).2 =>
      first [ apply dtc_bind; [solve [repeat quiet_step]|intros ? ?]
            | apply dtc_phases;
              [|intros ?];
              unfold delete_stale, add_missing, cloudflare_delete_record,
                cloudflare_add_tlsa; cbv zeta; solve [repeat quiet_step] ]
  | |- deletes_then_creates (_ _).2 => apply dtc_silent; solve [repeat quiet_step]
  end.

(** In every run of the [try] block, dry or live, complete or cut short
    by an error, all delete calls come before all create calls. *)
Theorem deletes_precede_creates (fuel : nat) (env : gmap string string)
    (args : Args) (w : W) :
  deletes_then_creates (main_try fuel env args w).2
  ∧ deletes_then_creates (main_guarded fuel env args w).2.
Proof.
  assert (deletes_then_creates (main_try fuel env args w).2) as Hblock.
  { unfold main_try. cbv zeta. repeat order_step. }
  split; [done|].
  destruct Hblock as (ds & cs & Hb & Hds & Hcs).
  exists ds, cs. by rewrite main_guarded_same_mutations.
Qed.
End Order.

(** ** A run that finds nothing to change *)

Section Noop.
Context {W : Type} `{World W}.

Lemma for_each_print {A} (l : list A) (f : A → message) (w : W) :
  for_each l (fun x => print (f x)) w = (Ret tt, w, EvStdout <$> (f <$> l)).
Proof.
  induction l as [|x l IH]; [done|]. cbn [for_each]. unfold print at 1.
  by rewrite bind_emit, IH.
Qed.

Lemma filter_stdout (p : event → bool) (ms : list message) :
  (∀ m, p (EvStdout m) = false) → List.filter p (EvStdout <$> ms) = [].
Proof.
  intros Hp. induction ms as [|m ms IH]; [done|]. cbn. by rewrite Hp.
Qed.

Lemma verbose_block_run (verbose : bool) (desired existing : list NormTLSA) (w : W) :
  ∃ tv,
    (if verbose then
       bind (print MsgNormalizedStalwart) (fun _ =>
       bind (for_each desired (fun r => print (MsgRecord (name r) (content r)))) (fun _ =>
       bind (print MsgNormalizedCloudflare) (fun _ =>
       for_each existing (fun r => print (MsgRecord (name r) (content r))))))
     else ret tt) w = (Ret tt, w, tv)
    ∧ mutations tv = [] ∧ reads tv = [].
Proof.
  destruct verbose; [|by exists []].
  exists (EvStdout <$>
            (MsgNormalizedStalwart
             :: ((fun r => MsgRecord (name r) (content r)) <$> desired)
             ++ MsgNormalizedCloudflare
             :: ((fun r => MsgRecord (name r) (content r)) <$> existing))).
  split.
  - unfold print at 1 3. rewrite bind_emit.
    rewrite (bind_run _ _ w w tt _ (for_each_print _ _ _)).
    rewrite bind_emit, for_each_print. cbn [fst snd].
    by rewrite fmap_cons, fmap_app, fmap_cons.
  - split; by apply filter_stdout.
Qed.

Lemma bind_run2 {A B} (m : M W A) (k : A → M W B) (w w1 w2 : W) (a : A)
    (o : outcome B) (t1 t2 : list event) :
  m w = (Ret a, w1, t1) → k a w1 = (o, w2, t2) →
  bind m k w = (o, w2, t1 ++ t2).
Proof. unfold bind. by intros -> ->. Qed.


End Noop.



(** ** Pagination *)

Section Pagination.
Context {W : Type} `{World W}.



End Pagination.


(** ** Integers through [str] and [int] *)

Lemma digit_val_pretty_N_char (r : N) :
  (r < 10)%N → digit_val (pretty_N_char r) = Some (Z.of_N r)
               ∧ is_digit (pretty_N_char r) = true.
Proof.
  intros Hr.
  assert (r = 0 ∨ r = 1 ∨ r = 2 ∨ r = 3 ∨ r = 4 ∨ r = 5 ∨ r = 6 ∨ r = 7
          ∨ r = 8 ∨ r = 9)%N as Hcases by lia.
  repeat (destruct Hcases as [->|Hcases]; [done|]). by subst r.
Qed.

Lemma parse_digits_pretty_N_go (x : N) :
  (0 < x)%N →
  ∃ k, ∀ acc b s,
    parse_digits acc b (pretty_N_go x s) = parse_digits (acc * k + Z.of_N x) true s.
Proof.
  induction (N.lt_wf_0 x) as [x _ IH]. intros Hx.
  destruct (digit_val_pretty_N_char (x `mod` 10)) as [Hd _];
    [by apply N.mod_lt|].
  assert (Z.of_N x = 10 * Z.of_N (x `div` 10) + Z.of_N (x `mod` 10))%Z as Hdm.
  { rewrite (N.div_mod x 10) at 1 by done. lia. }
  destruct (decide (x `div` 10 = 0)%N) as [Hz|Hnz].
  - exists 10%Z. intros acc b s.
    rewrite pretty_N_go_step, Hz, pretty_N_go_0 by done.
    cbn [parse_digits]. rewrite Hd. f_equal. rewrite Hz in Hdm. lia.
  - destruct (IH (x `div` 10)%N) as [k Hk];
      [by apply N.div_lt|by apply N.neq_0_lt_0|].
    exists (10 * k)%Z. intros acc b s.
    rewrite pretty_N_go_step, Hk by done.
    cbn [parse_digits]. rewrite Hd. f_equal. lia.
Qed.

Lemma all_digits_pretty_N_go (x : N) (s : string) :
  all_chars is_digit s = true → all_chars is_digit (pretty_N_go x s) = true.
Proof.
  revert s. induction (N.lt_wf_0 x) as [x _ IH]. intros s Hs.
  destruct (decide (x = 0)%N) as [->|Hx]; [by rewrite pretty_N_go_0|].
  rewrite pretty_N_go_step by lia. apply IH; [apply N.div_lt; lia|].
  cbn [all_chars]. rewrite Hs.
  destruct (digit_val_pretty_N_char (x `mod` 10)) as [_ ->];
    [by apply N.mod_lt|done].
Qed.

Lemma digit_not_space (c : ascii) : is_digit c = true → negb (is_space c) = true.
Proof. by destruct c as [[] [] [] [] [] [] [] []]. Qed.

Lemma py_int_digits (t : string) :
  all_chars is_digit t = true → py_int t = parse_digits 0 false t.
Proof.
  intros Ht. unfold py_int.
  rewrite strip_no_whitespace
    by (unfold no_whitespace; revert Ht; apply all_chars_impl, digit_not_space).
  destruct t as [|c r]; [done|].
  cbn [all_chars] in Ht. apply andb_prop in Ht as [Hc _].
  by destruct c as [[] [] [] [] [] [] [] []].
Qed.

Lemma pretty_pos_digits (p : positive) :
  all_chars is_digit (pretty (N.pos p)) = true
  ∧ parse_digits 0 false (pretty (N.pos p)) = Some (Z.pos p).
Proof.
  unfold pretty, pretty_N. rewrite decide_False by done. split.
  - by apply all_digits_pretty_N_go.
  - destruct (parse_digits_pretty_N_go (N.pos p)) as [k Hk]; [done|].
    rewrite Hk. cbn [parse_digits]. f_equal.
Qed.

(** [int(str(z)) = z]: the decimal text Python prints for an integer is
    read back by [int] as the same integer; the text holds no whitespace
    and is not empty. *)
Lemma py_int_py_str (z : Z) :
  py_int (py_str (JInt z)) = Some z
  ∧ no_whitespace (py_str (JInt z)) = true
  ∧ nonempty (py_str (JInt z)) = true.
Proof.
  cbn [py_str]. destruct z as [|p|p].
  - done.
  - destruct (pretty_pos_digits p) as [Hd Hp].
    change (pretty (Z.pos p)) with (pretty (N.pos p)).
    split; [by rewrite py_int_digits|]. split.
    + unfold no_whitespace. revert Hd. apply all_chars_impl, digit_not_space.
    + by destruct (pretty (N.pos p)).
  - destruct (pretty_pos_digits p) as [Hd Hp].
    change (pretty (Z.neg p)) with (String "-" (pretty (N.pos p))).
    assert (no_whitespace (String "-" (pretty (N.pos p))) = true) as Hws.
    { unfold no_whitespace. cbn [all_chars]. revert Hd.
      apply all_chars_impl, digit_not_space. }
    split; [|done]. unfold py_int. rewrite (strip_no_whitespace _ Hws).
    by rewrite Hp.
Qed.

Lemma strip_id_ends (x : string) (a b : ascii) :
  first_char x = Some a → is_space a = false →
  last_char x = Some b → is_space b = false →
  strip x = x.
Proof.
  intros Ha Hsa Hb Hsb. unfold strip.
  destruct x as [|a' x]; [done|]. injection Ha as ->.
  cbn [lstrip_by]. rewrite Hsa. by apply (rstrip_by_id_last _ _ b).
Qed.

Lemma no_whitespace_no_space (t : string) :
  no_whitespace t = true →
  all_chars (fun c => negb (Ascii.eqb c " ")) t = true.
Proof.
  apply all_chars_impl. intros c Hc.
  apply negb_true_iff in Hc. apply negb_true_iff.
  destruct (Ascii.eqb_spec c " ") as [->|]; done.
Qed.

(** A record read from Cloudflare can be sent back as it is.  For a
    listed record with integer usage, selector and matching type, a
    non-blank certificate and a non-empty name and id, the content the
    Cloudflare side builds is split by the add step into a create payload
    that carries the same three integers and the trimmed certificate,
    under the normalised name. *)
Theorem listed_record_recreates_itself (r : cf_object) (u s m ttl : Z) (c : string) :
  cf_data r = Some {| td_usage := Some (JInt u); td_selector := Some (JInt s);
                      td_matching_type := Some (JInt m);
                      td_certificate := Some (JStr c) |} →
  nonempty (normalize_name (get_str (cf_name r))) = true →
  nonempty (get_str (cf_id r)) = true →
  nonempty (strip c) = true →
  ∃ rec,
    existing_step r = Some (rec, get_str (cf_id r))
    ∧ payload_of rec ttl
      = Some {| p_name := normalize_name (get_str (cf_name r));
                p_usage := u; p_selector := s; p_matching_type := m;
                p_certificate := strip c; p_proxied := false; p_ttl := ttl |}.
Proof.
  intros Hdata Hname Hid Hcert.
  destruct (py_int_py_str u) as (Hiu & Hwu & Hnu).
  destruct (py_int_py_str s) as (His & Hws & Hns).
  destruct (py_int_py_str m) as (Him & Hwm & Hnm).
  set (U := py_str (JInt u)) in *. set (S := py_str (JInt s)) in *.
  set (M := py_str (JInt m)) in *. set (C := strip c) in *.
  assert (strip (U +:+ " " +:+ S +:+ " " +:+ M +:+ " " +:+ C)
          = U +:+ " " +:+ S +:+ " " +:+ M +:+ " " +:+ C) as Hstrip.
  { destruct (last_char_nonempty C Hcert) as [b Hb].
    destruct U as [|a U'] eqn:HU; [done|].
    apply (strip_id_ends _ a b); [done| | |].
    - unfold no_whitespace in Hwu. cbn [all_chars] in Hwu.
      apply andb_prop in Hwu as [Ha _]. by apply negb_true_iff in Ha.
    - rewrite <- HU.
      rewrite <- !app_assoc. by rewrite last_char_app.
    - apply (strip_ends c). by right. }
  eexists. split.
  - unfold existing_step. rewrite Hdata.
    cbn [default from_option id td_usage td_selector td_matching_type
         td_certificate get_str].
    fold U S M. cbn [py_str]. fold C.
    rewrite !strip_no_whitespace by done.
    rewrite Hname, Hnu, Hns, Hnm, Hcert, Hid. cbn [andb negb].
    by rewrite Hstrip.
  - unfold payload_of. cbn [content name].
    change (U +:+ " " +:+ S +:+ " " +:+ M +:+ " " +:+ C)
      with (U +:+ String " " (S +:+ String " " (M +:+ String " " C))).
    rewrite !split_sep_field by (by apply no_whitespace_no_space).
    rewrite split_sep_zero. by rewrite Hiu, His, Him.
Qed.

Lemma listed_record_recreates_itself_witness :
  ∃ rec,
    existing_step cf_sample = Some (rec, "rec-1")
    ∧ payload_of rec 120
      = Some {| p_name := "_25._tcp.mail.example.com";
                p_usage := 3; p_selector := 1; p_matching_type := 1;
                p_certificate := "abcd"; p_proxied := false; p_ttl := 120 |}.
Proof.
  apply (listed_record_recreates_itself cf_sample 3 1 1 120 " abcd ");
    reflexivity.
Defined.

(** ** Required environment variables *)

Lemma all_chars_app (p : ascii → bool) (s t : string) :
  all_chars p (s +:+ t) = all_chars p s && all_chars p t.
Proof.
  induction s as [|c s IH]; [done|]. rewrite app_cons. cbn [all_chars].
  by rewrite IH, andb_assoc.
Qed.

Lemma strip_empty_all_space (s : string) :
  nonempty (strip s) = false ↔ all_chars is_space s = true.
Proof.
  rewrite strip_empty_iff. split; [|apply split_ws_all_space].
  intros Hs. apply strip_empty_iff in Hs.
  destruct (strip_decomp s) as (pre & suf & Heq & Hpre & Hsuf).
  destruct (strip s); [|done]. rewrite Heq, app_nil_l, all_chars_app.
  by rewrite Hpre, Hsuf.
Qed.

(** [env_required] returns the trimmed value of the variable, which is
    never empty and neither begins nor ends with whitespace; it fails
    exactly when the variable is unset or holds only whitespace. *)
Theorem env_required_trims_or_fails (env : gmap string string) (key : string) :
  match env_required env key with
  | inr val =>
      ∃ raw, env !! key = Some raw ∧ val = strip raw ∧ nonempty val = true
             ∧ ∀ c, first_char val = Some c ∨ last_char val = Some c →
                    is_space c = false
  | inl e =>
      e = MissingRequiredEnv key
      ∧ (env !! key = None
         ∨ ∃ raw, env !! key = Some raw ∧ all_chars is_space raw = true)
  end.
Proof.
  unfold env_required.
  destruct (nonempty (strip (default "" (env !! key)))) eqn:Hne; cbn [negb].
  - destruct (env !! key) as [raw|]; [|done].
    exists raw. repeat split; try done. apply strip_ends.
  - split; [done|]. destruct (env !! key) as [raw|]; [|by left].
    right. exists raw. split; [done|]. by apply strip_empty_all_space.
Qed.

(** ** The Stalwart fetcher *)










(** ** A live run applies the plan *)

Section Live.
Context {W : Type} `{World W}.

Lemma set_nonempty_false (s : gset (string * string)) :
  set_nonempty s = false → s = ∅.
Proof.
  unfold set_nonempty. intros Hs. apply negb_false_iff in Hs.
  by apply bool_decide_eq_true_1 in Hs.
Qed.

Lemma planned_deletes_empty (zone_id cf_key : string)
    (ids_by_key : gmap (string * string) (list string)) :
  planned_deletes zone_id cf_key ids_by_key ∅ = [].
Proof. unfold planned_deletes, sorted_keys. by rewrite elements_empty. Qed.

Lemma planned_creates_empty (zone_id cf_key : string) (ttl : Z) :
  planned_creates zone_id cf_key ttl ∅ = [].
Proof. unfold planned_creates, sorted_keys. by rewrite elements_empty. Qed.

Lemma print_then_plan (msg : message) (m : M W unit) (plan : list event) (w : W) :
  (∀ w', mutations (m w').2 `prefix_of` plan
         ∧ ((m w').1.1 = Ret tt → mutations (m w').2 = plan)) →
  mutations (bind (print msg) (fun _ => m) w).2 `prefix_of` plan
  ∧ ((bind (print msg) (fun _ => m) w).1.1 = Ret tt →
     mutations (bind (print msg) (fun _ => m) w).2 = plan).
Proof.
  intros Hm. destruct (Hm w) as [Hp Hr]. cbv [bind print emit].
  destruct (m w) as [[o w1] t]. cbn [fst snd] in *.
  split; [exact Hp|exact Hr].
Qed.

Lemma seq_plan {A B} (m : M W A) (k : A → M W B) (P1 P2 : list event)
    (b : B) (w : W) :
  (mutations (m w).2 `prefix_of` P1
   ∧ ((∃ a, (m w).1.1 = Ret a) → mutations (m w).2 = P1)) →
  (∀ a w', mutations (k a w').2 `prefix_of` P2
           ∧ ((k a w').1.1 = Ret b → mutations (k a w').2 = P2)) →
  mutations (bind m k w).2 `prefix_of` P1 ++ P2
  ∧ ((bind m k w).1.1 = Ret b → mutations (bind m k w).2 = P1 ++ P2).
Proof.
  intros [Hpre Hret] Hk. unfold bind.
  destruct (m w) as [[[a|e|x|] w1] t1]; cbn [fst snd] in *;
    try (split; [by apply prefix_app_r|done]).
  destruct (Hk a w1) as [Hpre' Hret'].
  destruct (k a w1) as [[o w2] t2]. cbn [fst snd] in *.
  unfold mutations in *. rewrite List.filter_app, Hret by eauto. split.
  - by apply prefix_app.
  - intros Ho. by rewrite Hret'.
Qed.

Lemma apply_changes_plan (zone_id cf_key : string) (ttl : Z)
    (ids_by_key : gmap (string * string) (list string))
    (stale missing : gset (string * string)) (w : W) :
  let run := apply_changes zone_id cf_key ttl ids_by_key stale missing w in
  let plan := planned_deletes zone_id cf_key ids_by_key stale
              ++ planned_creates zone_id cf_key ttl missing in
  mutations run.2 `prefix_of` plan
  ∧ (run.1.1 = Ret 0%Z → mutations run.2 = plan).
Proof.
  cbv zeta. unfold apply_changes.
  rewrite <- (List.app_nil_r (planned_creates zone_id cf_key ttl missing)).
  apply seq_plan.
  { destruct (set_nonempty stale) eqn:Hs.
    - destruct (print_then_plan MsgDeleting
                  (delete_stale zone_id cf_key ids_by_key stale)
                  (planned_deletes zone_id cf_key ids_by_key stale) w
                  (delete_stale_plan zone_id cf_key ids_by_key stale))
        as [Hp Hr].
      split; [done|]. intros [[] Ha]. by apply Hr.
    - apply set_nonempty_false in Hs as ->.
      by rewrite planned_deletes_empty. }
  intros _ w1. apply seq_plan.
  { destruct (set_nonempty missing) eqn:Hs.
    - destruct (print_then_plan MsgAdding
                  (add_missing zone_id cf_key ttl missing)
                  (planned_creates zone_id cf_key ttl missing) w1
                  (add_missing_plan zone_id cf_key ttl missing))
        as [Hp Hr].
      split; [done|]. intros [[] Ha]. by apply Hr.
    - apply set_nonempty_false in Hs as ->.
      by rewrite planned_creates_empty. }
  intros _ w2. done.
Qed.

(** A live run applies the plan, deletes first.  When the three reads
    succeed and the desired and existing sets differ, the mutation calls
    of a live run are an initial part of the planned delete calls followed
    by the planned create calls, whatever the world answers, and they are
    exactly these calls when the run returns 0. *)
Theorem live_run_applies_plan (fuel : nat) (env : gmap string string)
    (args : Args) (w w1 w2 w3 : W) (t1 t2 t3 : list event)
    (per_page ttl : Z) (desired existing : list NormTLSA) (zone_id : string)
    (ids_by_key : gmap (string * string) (list string)) :
  let domain := strip (default "" (arg_domain args)) in
  let cf_key := strip (default "" (arg_cf_api_key args)) in
  let stalwart_key := strip (default "" (arg_stalwart_api_key args)) in
  let stalwart_url := strip (default "" (arg_stalwart_endpoint_url args)) in
  let stale := to_delete (tlsa_set desired) (tlsa_set existing) in
  let missing := to_add (tlsa_set desired) (tlsa_set existing) in
  let plan := planned_deletes zone_id cf_key ids_by_key stale
              ++ planned_creates zone_id cf_key ttl missing in
  nonempty domain = true → nonempty cf_key = true →
  nonempty stalwart_key = true → nonempty stalwart_url = true →
  py_int (default "100" (env !! "CF_PER_PAGE")) = Some per_page →
  py_int (default "120" (env !! "CF_TTL")) = Some ttl →
  arg_dry_run args = false →
  stalwart_fetch_tlsa domain stalwart_url stalwart_key w = (Ret desired, w1, t1) →
  desired ≠ [] →
  cloudflare_get_zone_id domain cf_key w1 = (Ret zone_id, w2, t2) →
  cloudflare_existing_tlsa fuel zone_id cf_key per_page w2
    = (Ret (existing, ids_by_key), w3, t3) →
  tlsa_set desired ≠ tlsa_set existing →
  mutations (main_try fuel env args w).2 `prefix_of` plan
  ∧ ((main_try fuel env args w).1.1 = Ret 0%Z →
     mutations (main_try fuel env args w).2 = plan).
Proof.
  intros domain cf_key stalwart_key stalwart_url stale missing plan
    Hd Hc Hk Hu Hpp Httl Hdry Hfetch Hne Hzone Hexisting Hsets.
  assert (mutations t1 = [] ∧ mutations t2 = [] ∧ mutations t3 = []) as (Hm1 & Hm2 & Hm3).
  { split; [|split].
    - pose proof (silent_stalwart_fetch_tlsa is_mutation domain stalwart_url
                    stalwart_key ltac:(done) ltac:(done) w) as Hs.
      by rewrite Hfetch in Hs.
    - pose proof (silent_cloudflare_get_zone_id is_mutation domain cf_key
                    ltac:(done) w1) as Hs.
      by rewrite Hzone in Hs.
    - pose proof (silent_cloudflare_existing_tlsa is_mutation fuel zone_id cf_key
                    per_page ltac:(done) w2) as Hs.
      by rewrite Hexisting in Hs. }
  destruct (verbose_block_run (arg_verbose args) desired existing w3)
    as (tv & Hverbose & Hmv & Hrv).
  set (tail := apply_changes zone_id cf_key ttl ids_by_key stale missing w3).
  assert (main_try fuel env args w
          = (tail.1.1, tail.1.2,
             [] ++ [] ++ [EvStdout (MsgStarting domain)]
             ++ [EvStdout MsgFetchingStalwart] ++ t1
             ++ [EvStdout (MsgFoundStalwart (length desired))]
             ++ [EvStdout (MsgFetchingZone domain)] ++ t2
             ++ [EvStdout (MsgZoneId zone_id)] ++ [EvStdout MsgFetchingCloudflare]
             ++ t3 ++ [EvStdout (MsgFoundCloudflare (length existing))]
             ++ tv ++ [EvStdout MsgPlanned]
             ++ [EvStdout (MsgPlanDelete (size stale))]
             ++ [EvStdout (MsgPlanAdd (size missing))] ++ tail.2)) as Hrun.
  { unfold main_try. fold domain cf_key stalwart_key stalwart_url.
    rewrite Hd, Hc, Hk, Hu, Hdry. cbn [negb].
    unfold int_of_str. rewrite Hpp, Httl.
    eapply bind_run2; [reflexivity|]. eapply bind_run2; [reflexivity|].
    eapply bind_run2; [reflexivity|]. eapply bind_run2; [reflexivity|].
    eapply bind_run2; [exact Hfetch|].
    destruct desired as [|d0 desired']; [done|].
    eapply bind_run2; [reflexivity|]. eapply bind_run2; [reflexivity|].
    eapply bind_run2; [exact Hzone|].
    eapply bind_run2; [reflexivity|]. eapply bind_run2; [reflexivity|].
    eapply bind_run2; [exact Hexisting|]. cbn [fst snd].
    eapply bind_run2; [reflexivity|].
    eapply bind_run2; [exact Hverbose|].
    rewrite bool_decide_eq_false_2 by done.
    eapply bind_run2; [reflexivity|]. eapply bind_run2; [reflexivity|].
    eapply bind_run2; [reflexivity|].
    unfold tail, apply_changes. by destruct (bind _ _ w3) as [[??]?]. }
  rewrite Hrun. cbn [fst snd].
  destruct (apply_changes_plan zone_id cf_key ttl ids_by_key stale missing w3)
    as [Hpre Hret]. fold tail in Hpre, Hret.
  assert (∀ t, mutations
            ([] ++ [] ++ [EvStdout (MsgStarting domain)]
             ++ [EvStdout MsgFetchingStalwart] ++ t1
             ++ [EvStdout (MsgFoundStalwart (length desired))]
             ++ [EvStdout (MsgFetchingZone domain)] ++ t2
             ++ [EvStdout (MsgZoneId zone_id)] ++ [EvStdout MsgFetchingCloudflare]
             ++ t3 ++ [EvStdout (MsgFoundCloudflare (length existing))]
             ++ tv ++ [EvStdout MsgPlanned]
             ++ [EvStdout (MsgPlanDelete (size stale))]
             ++ [EvStdout (MsgPlanAdd (size missing))] ++ t) = mutations t) as Hmut.
  { intros t. unfold mutations in *. rewrite !List.filter_app.
    cbn [List.filter is_mutation]. by rewrite Hm1, Hm2, Hm3, Hmv. }
  rewrite Hmut. done.
Qed.
End Live.

Lemma live_run_applies_plan_witness :
  let run := main_try 8 env_sample (parse_args env_sample no_flags) out_of_sync in
  let plan :=
    [ EvHttp (DeleteDnsRecord "zone-a" "rec-9" "cf-token");
      EvHttp (PostDnsRecord "zone-a" "cf-token"
                {| p_name := "_25._tcp.mail.example.com"; p_usage := 3;
                   p_selector := 1; p_matching_type := 1;
                   p_certificate := "abcd"; p_proxied := false; p_ttl := 120 |}) ] in
  mutations run.2 `prefix_of` plan
  ∧ (run.1.1 = Ret 0%Z → mutations run.2 = plan).
Proof.
  cbv zeta.
  set (args := parse_args env_sample no_flags).
  set (desired := [ {| name := "_25._tcp.mail.example.com"; content := "3 1 1 abcd" |} ]).
  set (existing := [ {| name := "_25._tcp.mail.example.com"; content := "3 1 1 ffff" |} ]).
  set (ids := ({[ ("_25._tcp.mail.example.com", "3 1 1 ffff") := ["rec-9"] ]}
               : gmap (string * string) (list string))).
  assert (planned_deletes "zone-a" (strip (default "" (arg_cf_api_key args))) ids
            (to_delete (tlsa_set desired) (tlsa_set existing))
          ++ planned_creates "zone-a" (strip (default "" (arg_cf_api_key args))) 120
               (to_add (tlsa_set desired) (tlsa_set existing))
          = [ EvHttp (DeleteDnsRecord "zone-a" "rec-9" "cf-token");
              EvHttp (PostDnsRecord "zone-a" "cf-token"
                        {| p_name := "_25._tcp.mail.example.com"; p_usage := 3;
                           p_selector := 1; p_matching_type := 1;
                           p_certificate := "abcd"; p_proxied := false;
                           p_ttl := 120 |}) ]) as Hplan
    by (vm_compute; reflexivity).
  rewrite <- Hplan.
  apply (live_run_applies_plan 8 env_sample args
           out_of_sync out_of_sync out_of_sync out_of_sync
           [EvHttp (GetStalwartRecords "http://stalwart:8080" "example.com"
                      "stalwart-token")]
           [EvHttp (GetZones "example.com" "cf-token")]
           [EvHttp (GetDnsRecords "zone-a" "cf-token" (Some "TLSA") 100 1)]
           100 120 desired existing "zone-a" ids);
    try (vm_compute; reflexivity); try done.
Defined.

(** ** The pre-sync step never runs the reload command *)


(** ** What the Normalizer does not depend on *)

Lemma normalize_loop_omap (records : list stalwart_object) :
  (normalize_loop records).1 = omap (fun r => (normalize_step r).1) records.
Proof.
  induction records as [|r rest IH]; [done|]. cbn [normalize_loop omap list_omap].
  destruct (normalize_step r) as [o w]. destruct (normalize_loop rest) as [out ws].
  cbn [fst snd] in *. rewrite <- IH. by destruct o.
Qed.

Lemma sort_tlsa_perm (l l' : list NormTLSA) : l ≡ₚ l' → sort_tlsa l = sort_tlsa l'.
Proof.
  intros Hp. apply sort_tlsa_unique.
  - apply Sorted_merge_sort, _.
  - unfold sort_tlsa. by rewrite merge_sort_Permutation.
Qed.

(** The output of both normalisers does not depend on the order of their
    input: two listings holding the same records in different orders give
    the same sorted sequence, hence the same set of keys. *)
Theorem normalizers_ignore_input_order
    (records records' : list stalwart_object) (raw raw' : list cf_object) :
  records ≡ₚ records' → raw ≡ₚ raw' →
  (normalize_tlsa_records records).1 = (normalize_tlsa_records records').1
  ∧ (existing_of_raw raw).1 = (existing_of_raw raw').1
  ∧ tlsa_set (existing_of_raw raw).1 = tlsa_set (existing_of_raw raw').1.
Proof.
  intros Hrec Hraw.
  assert ((existing_of_raw raw).1 = (existing_of_raw raw').1) as Hex.
  { unfold existing_of_raw. cbn [fst]. apply sort_tlsa_perm. by rewrite Hraw. }
  split; [|split; [done|by rewrite Hex]].
  rewrite !normalize_records_fst, !normalize_loop_omap.
  apply sort_tlsa_perm. by rewrite Hrec.
Qed.

Lemma normalizers_ignore_input_order_witness :
  (normalize_tlsa_records [st_sample; raw_of {| name := "a"; content := "0 0 1 ff" |}]).1
  = (normalize_tlsa_records [raw_of {| name := "a"; content := "0 0 1 ff" |}; st_sample]).1
  ∧ (existing_of_raw [cf_sample; cf_stale]).1 = (existing_of_raw [cf_stale; cf_sample]).1
  ∧ tlsa_set (existing_of_raw [cf_sample; cf_stale]).1
    = tlsa_set (existing_of_raw [cf_stale; cf_sample]).1.
Proof.
  apply (normalizers_ignore_input_order
           [st_sample; raw_of {| name := "a"; content := "0 0 1 ff" |}]
           [raw_of {| name := "a"; content := "0 0 1 ff" |}; st_sample]
           [cf_sample; cf_stale] [cf_stale; cf_sample]);
    apply perm_swap.
Defined.

(** Whitespace around the content of a raw record does not matter: a
    record whose content is wrapped in whitespace gives the canonical
    record of the unwrapped content. *)
Theorem normalize_step_ignores_outer_whitespace
    (ty nm : option scalar) (body pre suf : string) :
  all_chars is_space pre = true → all_chars is_space suf = true →
  (normalize_step {| st_type := ty; st_name := nm;
                     st_content := Some (JStr (pre +:+ body +:+ suf)) |}).1
  = (normalize_step {| st_type := ty; st_name := nm;
                       st_content := Some (JStr body) |}).1.
Proof.
  intros Hpre Hsuf. rewrite !normalize_step_eq. unfold name_of, tokens_of.
  cbn [st_name st_content get_str py_str].
  rewrite split_ws_lstrip, split_ws_rstrip by done.
  destruct (negb _ || _); [done|]. by destruct (_ <? _)%nat.
Qed.

Lemma normalize_step_ignores_outer_whitespace_witness :
  (normalize_step {| st_type := None; st_name := Some (JStr "a");
                     st_content := Some (JStr ("  " +:+ "3  1 1 ab" +:+ " ")) |}).1
  = (normalize_step {| st_type := None; st_name := Some (JStr "a");
                       st_content := Some (JStr "3  1 1 ab") |}).1.
Proof.
  apply (normalize_step_ignores_outer_whitespace None (Some (JStr "a"))
           "3  1 1 ab" "  " " "); reflexivity.
Defined.
